(** * Location-analysis dashboard front end: model and verified properties

    A shallow embedding of [app/static/js/main.js] (class [ChoksApp]) and
    [app/static/js/analytics.js] (class [Analytics]).

    - The page is a [World]: the elements reachable through
      [document.getElementById] (a finite map from id to element), the
      checked demographic boxes, [localStorage], and the list of effects
      the scripts have had on the outside (requests, class-list changes,
      scrolling, focus, console output), oldest first.
    - A method is a function [World -> Completion * World]: it completes
      normally or throws, as a JavaScript statement does; [try]/[catch]/
      [finally] are combinators on such functions.
    - An awaited promise is settled by the environment: the way the
      request of a submission settles is an argument of the handler.
    - Markup is kept as a tree that follows the template literal it comes
      from; an interpolated value is a leaf of its own and is not parsed.
    - A number is a rational or one of the three non-finite values; only
      comparison and [Math.round] are applied to numbers, and both are
      exact on binary64 values. *)

From Stdlib Require Import ZArith QArith Qround String Ascii List Lia Lqa.
From stdpp Require Import base gmap strings list.
Close Scope Q_scope.

(** [Array.prototype.join] on strings. *)
Fixpoint join (sep : string) (l : list string) : string :=
  match l with
  | [] => EmptyString
  | [x] => x
  | x :: rest => x +:+ sep +:+ join sep rest
  end.

(** ** JSON texts and values

    [JSON.parse] and [JSON.stringify] of the engine, on byte strings.  A
    number is represented by its literal; a [\uXXXX] escape denotes one
    UTF-16 code unit and is stored as the one to three bytes of its UTF-8
    form.  An object keeps its members in the order of the text. *)
Module JSON.

#[local] Unset Elimination Schemes.
Inductive Value :=
| Null
| Bool (b : bool)
| Number (literal : string)
| Str (s : string)
| Arr (items : list Value)
| Obj (members : list (string * Value)).
#[local] Set Elimination Schemes.

Definition quote : ascii := "034"%char.
Definition backslash : ascii := "092"%char.

Definition code (c : ascii) : N := N_of_ascii c.

Definition is_ws (c : ascii) : bool :=
  (code c =? 32)%N || (code c =? 9)%N || (code c =? 10)%N || (code c =? 13)%N.

Definition is_digit (c : ascii) : bool :=
  (48 <=? code c)%N && (code c <=? 57)%N.

Fixpoint skip_ws (s : string) : string :=
  match s with
  | String c s' => if is_ws c then skip_ws s' else s
  | EmptyString => s
  end.

(** *** Serialisation *)

Definition hex_digit (n : N) : ascii :=
  if (n <? 10)%N then ascii_of_N (48 + n) else ascii_of_N (87 + n).

Definition escape_char (c : ascii) : string :=
  let n := code c in
  if (n =? 34)%N then String backslash (String quote EmptyString)
  else if (n =? 92)%N then String backslash (String backslash EmptyString)
  else if (n =? 8)%N then String backslash "b"
  else if (n =? 12)%N then String backslash "f"
  else if (n =? 10)%N then String backslash "n"
  else if (n =? 13)%N then String backslash "r"
  else if (n =? 9)%N then String backslash "t"
  else if (n <? 32)%N then
    String backslash
      (String "u" (String "0" (String "0"
        (String (hex_digit (n / 16)) (String (hex_digit (n mod 16)) EmptyString)))))
  else String c EmptyString.

Fixpoint escape (s : string) : string :=
  match s with
  | EmptyString => EmptyString
  | String c s' => escape_char c +:+ escape s'
  end.

Definition quoted (s : string) : string :=
  String quote (escape s +:+ String quote EmptyString).

Fixpoint stringify (v : Value) : string :=
  match v with
  | Null => "null"
  | Bool true => "true"
  | Bool false => "false"
  | Number literal => literal
  | Str s => quoted s
  | Arr items => "[" +:+ join "," (List.map stringify items) +:+ "]"
  | Obj members =>
      "{" +:+
      join "," (List.map (fun m => quoted (fst m) +:+ ":" +:+ stringify (snd m)) members)
      +:+ "}"
  end.

(** *** Parsing *)

Definition hex_value (c : ascii) : option N :=
  let n := code c in
  if (48 <=? n)%N && (n <=? 57)%N then Some (n - 48)%N
  else if (97 <=? n)%N && (n <=? 102)%N then Some (n - 87)%N
  else if (65 <=? n)%N && (n <=? 70)%N then Some (n - 55)%N
  else None.

Definition code_unit (a b c d : ascii) : option N :=
  match hex_value a, hex_value b, hex_value c, hex_value d with
  | Some x, Some y, Some z, Some w => Some (((x * 16 + y) * 16 + z) * 16 + w)%N
  | _, _, _, _ => None
  end.

Definition utf8 (n : N) (tail : string) : string :=
  if (n <? 128)%N then String (ascii_of_N n) tail
  else if (n <? 2048)%N then
    String (ascii_of_N (192 + n / 64)) (String (ascii_of_N (128 + n mod 64)) tail)
  else
    String (ascii_of_N (224 + n / 4096))
      (String (ascii_of_N (128 + (n / 64) mod 64))
        (String (ascii_of_N (128 + n mod 64)) tail)).

(** The characters of a string literal after its opening quote, up to and
    including the closing quote. *)
Fixpoint parse_chars (s : string) : option (string * string) :=
  match s with
  | EmptyString => None
  | String c s' =>
      if (code c =? 34)%N then Some (EmptyString, s')
      else if (code c =? 92)%N then
        match s' with
        | String e s'' =>
            let simple (x : N) :=
              match parse_chars s'' with
              | Some (str, rest) => Some (String (ascii_of_N x) str, rest)
              | None => None
              end in
            if (code e =? 34)%N then simple 34%N
            else if (code e =? 92)%N then simple 92%N
            else if (code e =? 47)%N then simple 47%N
            else if (code e =? 98)%N then simple 8%N
            else if (code e =? 102)%N then simple 12%N
            else if (code e =? 110)%N then simple 10%N
            else if (code e =? 114)%N then simple 13%N
            else if (code e =? 116)%N then simple 9%N
            else if (code e =? 117)%N then
              match s'' with
              | String h1 (String h2 (String h3 (String h4 t))) =>
                  match code_unit h1 h2 h3 h4, parse_chars t with
                  | Some n, Some (str, rest) => Some (utf8 n str, rest)
                  | _, _ => None
                  end
              | _ => None
              end
            else None
        | EmptyString => None
        end
      else if (code c <? 32)%N then None
      else
        match parse_chars s' with
        | Some (str, rest) => Some (String c str, rest)
        | None => None
        end
  end.

Definition starts_with (c : ascii) (s : string) : option string :=
  match s with
  | String d r => if Ascii.eqb d c then Some r else None
  | EmptyString => None
  end.

Fixpoint span_digits (s : string) : string * string :=
  match s with
  | String c s' =>
      if is_digit c then let (ds, rest) := span_digits s' in (String c ds, rest)
      else (EmptyString, s)
  | EmptyString => (EmptyString, s)
  end.

Definition nonempty (s : string) : bool :=
  match s with EmptyString => false | String _ _ => true end.

(** The four parts of a number literal; each scanner gives the part it
    read and the text after it. *)

(** An optional minus sign. *)
Definition scan_sign (s : string) : string * string :=
  match starts_with "-" s with
  | Some r => ("-"%string, r)
  | None => (EmptyString, s)
  end.

(** The digit zero, or a non-zero digit followed by digits. *)
Definition scan_int (s : string) : option (string * string) :=
  match s with
  | String c r =>
      if Ascii.eqb c "0" then Some (String c EmptyString, r)
      else if is_digit c then let (ds, rest) := span_digits r in Some (String c ds, rest)
      else None
  | EmptyString => None
  end.

(** An optional fraction: a point and at least one digit. *)
Definition scan_frac (s : string) : option (string * string) :=
  match starts_with "." s with
  | Some r =>
      let (ds, rest) := span_digits r in
      if nonempty ds then Some (String "." ds, rest) else None
  | None => Some (EmptyString, s)
  end.

(** An optional exponent: e or E, an optional sign, at least one digit. *)
Definition scan_exp (s : string) : option (string * string) :=
  match s with
  | String e r =>
      if Ascii.eqb e "e" || Ascii.eqb e "E" then
        let (esign, r1) :=
          match r with
          | String g r' =>
              if Ascii.eqb g "+" || Ascii.eqb g "-"
              then (String g EmptyString, r') else (EmptyString, r)
          | EmptyString => (EmptyString, r)
          end in
        let (ds, rest) := span_digits r1 in
        if nonempty ds then Some (String e (esign +:+ ds), rest) else None
      else Some (EmptyString, s)
  | EmptyString => Some (EmptyString, s)
  end.

Definition scan_number (s : string) : option (string * string) :=
  let (sign, s1) := scan_sign s in
  match scan_int s1 with
  | Some (int, s2) =>
      match scan_frac s2 with
      | Some (frac, s3) =>
          match scan_exp s3 with
          | Some (exp, rest) => Some (sign +:+ int +:+ frac +:+ exp, rest)
          | None => None
          end
      | None => None
      end
  | None => None
  end.

Fixpoint strip_prefix (p s : string) : option string :=
  match p, s with
  | EmptyString, _ => Some s
  | String a p', String b s' => if Ascii.eqb a b then strip_prefix p' s' else None
  | String _ _, EmptyString => None
  end.

Fixpoint parse_value (fuel : nat) (s : string) {struct fuel} : option (Value * string) :=
  match fuel with
  | O => None
  | S fuel =>
      match skip_ws s with
      | EmptyString => None
      | String c r as t =>
          if (code c =? 34)%N then
            match parse_chars r with
            | Some (str, rest) => Some (Str str, rest)
            | None => None
            end
          else if (code c =? 91)%N then
            match starts_with "]" (skip_ws r) with
            | Some rest => Some (Arr [], rest)
            | None =>
                match parse_elements fuel r with
                | Some (vs, rest) => Some (Arr vs, rest)
                | None => None
                end
            end
          else if (code c =? 123)%N then
            match starts_with "}" (skip_ws r) with
            | Some rest => Some (Obj [], rest)
            | None =>
                match parse_members fuel r with
                | Some (ms, rest) => Some (Obj ms, rest)
                | None => None
                end
            end
          else if (code c =? 110)%N then
            match strip_prefix "ull" r with
            | Some rest => Some (Null, rest)
            | None => None
            end
          else if (code c =? 116)%N then
            match strip_prefix "rue" r with
            | Some rest => Some (Bool true, rest)
            | None => None
            end
          else if (code c =? 102)%N then
            match strip_prefix "alse" r with
            | Some rest => Some (Bool false, rest)
            | None => None
            end
          else
            match scan_number t with
            | Some (literal, rest) => Some (Number literal, rest)
            | None => None
            end
      end
  end
with parse_elements (fuel : nat) (s : string) {struct fuel} : option (list Value * string) :=
  match fuel with
  | O => None
  | S fuel =>
      match parse_value fuel s with
      | Some (v, r) =>
          match skip_ws r with
          | String c r' =>
              if (code c =? 44)%N then
                match parse_elements fuel r' with
                | Some (vs, rest) => Some (v :: vs, rest)
                | None => None
                end
              else if (code c =? 93)%N then Some ([v], r')
              else None
          | EmptyString => None
          end
      | None => None
      end
  end
with parse_members (fuel : nat) (s : string) {struct fuel}
  : option (list (string * Value) * string) :=
  match fuel with
  | O => None
  | S fuel =>
      match starts_with quote (skip_ws s) with
      | Some r =>
          match parse_chars r with
          | Some (key, r1) =>
              match starts_with ":" (skip_ws r1) with
              | Some r2 =>
                  match parse_value fuel r2 with
                  | Some (v, r3) =>
                      match skip_ws r3 with
                      | String c r4 =>
                          if (code c =? 44)%N then
                            match parse_members fuel r4 with
                            | Some (ms, rest) => Some ((key, v) :: ms, rest)
                            | None => None
                            end
                          else if (code c =? 125)%N then Some ([(key, v)], r4)
                          else None
                      | EmptyString => None
                      end
                  | None => None
                  end
              | None => None
              end
          | None => None
          end
      | None => None
      end
  end.

(** [JSON.parse]: [None] stands for the [SyntaxError] it throws.  Every
    call of the three functions above consumes a character before the
    next one is made, so twice the length of the text is fuel enough. *)
Definition parse (s : string) : option Value :=
  match parse_value (2 * String.length s + 2) s with
  | Some (v, rest) =>
      match skip_ws rest with
      | EmptyString => Some v
      | String _ _ => None
      end
  | None => None
  end.

(** *** Measures and predicates on texts and values *)

Definition head_is (P : ascii -> bool) (s : string) : bool :=
  match s with
  | String c _ => P c
  | EmptyString => false
  end.

Definition is_e (c : ascii) : bool := Ascii.eqb c "e" || Ascii.eqb c "E".
Definition is_point (c : ascii) : bool := Ascii.eqb c ".".
Definition is_minus (c : ascii) : bool := Ascii.eqb c "-".

(** The text [rest] starts with nothing that could continue a number. *)
Definition number_end (rest : string) : bool :=
  negb (head_is (fun c => is_digit c || is_point c || is_e c) rest).

Fixpoint size (v : Value) : nat :=
  match v with
  | Arr items => S (list_sum (List.map (fun x => S (size x)) items))
  | Obj members => S (list_sum (List.map (fun m => S (size (snd m))) members))
  | _ => 1
  end.

(** The sizes of a sequence of elements and of a sequence of members, as
    [size] counts them. *)
Definition list_size (vs : list Value) : nat :=
  list_sum (List.map (fun x => S (size x)) vs).

Definition members_size (ms : list (string * Value)) : nat :=
  list_sum (List.map (fun m => S (size (snd m))) ms).

(** Every number in the value is a literal of the grammar. *)
Fixpoint well_formed (v : Value) : bool :=
  match v with
  | Number literal =>
      match scan_number literal with
      | Some (l, EmptyString) => String.eqb l literal
      | _ => false
      end
  | Arr items => forallb well_formed items
  | Obj members => forallb (fun m => well_formed (snd m)) members
  | _ => true
  end.

(** The round trip for one value: printed in front of a text that cannot
    continue a number, it is parsed back and the text is left. *)
Definition reads_back (v : Value) : Prop :=
  forall fuel rest,
    size v <= fuel -> number_end rest = true ->
    parse_value fuel (stringify v +:+ rest) = Some (v, rest).

End JSON.

(** ** Numbers *)

Inductive Number :=
| Finite (q : Q)
| PosInfinity
| NegInfinity
| NaN.

(** [a >= b]; every comparison with [NaN] is false. *)
Definition Number_ge (a b : Number) : bool :=
  match a, b with
  | NaN, _ => false
  | _, NaN => false
  | PosInfinity, _ => true
  | _, NegInfinity => true
  | Finite x, Finite y => Qle_bool y x
  | Finite _, PosInfinity => false
  | NegInfinity, _ => false
  end.

(** [Math.round]: the closest integer, the larger one on a tie. *)
Definition Math_round (x : Number) : Number :=
  match x with
  | Finite q => Finite (inject_Z (Qfloor (q + (1 # 2))%Q))
  | other => other
  end.

Definition Number_of_nat (n : nat) : Number := Finite (inject_Z (Z.of_nat n)).

(** ** Markup *)

#[local] Unset Elimination Schemes.
Inductive Html :=
| Elem (tag : string) (attrs : list (string * string)) (children : list Html)
| Text (s : string)   (* text of the template itself *)
| Str (s : string)    (* an interpolated string, inserted as it is *)
| Num (n : Number).   (* an interpolated number *)
#[local] Set Elimination Schemes.

Definition div (class : string) (children : list Html) : Html :=
  Elem "div" [("class", class)] children.

Definition icon (class : string) : Html := Elem "i" [("class", class)] [].

(** *** Queries on markup, as [getElementsByClassName] answers them *)

Fixpoint split_on (sep : ascii) (s : string) : list string :=
  match s with
  | EmptyString => [EmptyString]
  | String c s' =>
      if Ascii.eqb c sep then EmptyString :: split_on sep s'
      else
        match split_on sep s' with
        | w :: ws => String c w :: ws
        | [] => [String c EmptyString]
        end
  end.

Definition class_tokens (attrs : list (string * string)) : list string :=
  match List.find (fun a => String.eqb (fst a) "class") attrs with
  | Some (_, v) => List.filter (fun t => negb (String.eqb t EmptyString)) (split_on " " v)
  | None => []
  end.

Definition has_class (class : string) (h : Html) : bool :=
  match h with
  | Elem _ attrs _ => existsb (String.eqb class) (class_tokens attrs)
  | _ => false
  end.

(** Every element of the tree carrying [class], in document order. *)
Fixpoint by_class (class : string) (h : Html) : list Html :=
  match h with
  | Elem _ _ children =>
      (if has_class class h then [h] else []) ++ flat_map (by_class class) children
  | _ => []
  end.

Definition getElementsByClassName (class : string) (forest : list Html) : list Html :=
  flat_map (by_class class) forest.


(** ** The page *)

Record Element := {
  classList : list string;
  innerHTML : list Html;
  value : string;
  defaultValue : string
}.

Inductive Exn := TypeError | SyntaxError | DOMException.

Inductive Effect :=
| PreventDefault
| Request (url method body : string)
| ClassListRemove (id class : string)
| ClassListAdd (id class : string)
| ScrollIntoView (id : string)
| FormReset (id : string)
| Focus (id : string)
| ConsoleDebug (label : string) (e : Exn).

Record World := {
  document : gmap string Element;
  checkedDemographics : list string;
  defaultDemographics : list string;
  localStorage : gmap string string;
  effects : list Effect
}.

Definition set_document (d : gmap string Element) (w : World) : World :=
  {| document := d;
     checkedDemographics := checkedDemographics w;
     defaultDemographics := defaultDemographics w;
     localStorage := localStorage w;
     effects := effects w |}.

Definition set_checkedDemographics (c : list string) (w : World) : World :=
  {| document := document w;
     checkedDemographics := c;
     defaultDemographics := defaultDemographics w;
     localStorage := localStorage w;
     effects := effects w |}.

Definition set_localStorage (s : gmap string string) (w : World) : World :=
  {| document := document w;
     checkedDemographics := checkedDemographics w;
     defaultDemographics := defaultDemographics w;
     localStorage := s;
     effects := effects w |}.

Definition set_effects (l : list Effect) (w : World) : World :=
  {| document := document w;
     checkedDemographics := checkedDemographics w;
     defaultDemographics := defaultDemographics w;
     localStorage := localStorage w;
     effects := l |}.

Definition set_classList (l : list string) (e : Element) : Element :=
  {| classList := l; innerHTML := innerHTML e;
     value := value e; defaultValue := defaultValue e |}.

Definition set_innerHTML (h : list Html) (e : Element) : Element :=
  {| classList := classList e; innerHTML := h;
     value := value e; defaultValue := defaultValue e |}.

Definition set_value (v : string) (e : Element) : Element :=
  {| classList := classList e; innerHTML := innerHTML e;
     value := v; defaultValue := defaultValue e |}.

(** ** Statements: state and exceptions *)

Inductive Completion (A : Type) :=
| Normal (a : A)
| Throw (e : Exn).
Arguments Normal {A} a.
Arguments Throw {A} e.

Definition Js (A : Type) : Type := World -> Completion A * World.

#[export] Instance Js_ret : MRet Js := fun A a w => (Normal a, w).

#[export] Instance Js_bind : MBind Js := fun A B k p w =>
  match p w with
  | (Normal a, w') => k a w'
  | (Throw e, w') => (Throw e, w')
  end.

Definition throw {A} (e : Exn) : Js A := fun w => (Throw e, w).

(** [try { body } catch (error) { handler error }] *)
Definition try_catch {A} (body : Js A) (handler : Exn -> Js A) : Js A := fun w =>
  match body w with
  | (Normal a, w') => (Normal a, w')
  | (Throw e, w') => handler e w'
  end.

(** [try { body } finally { final }]: [final] runs on both completions
    of [body]; if it throws itself, that is the completion. *)
Definition try_finally {A} (body : Js A) (final : Js unit) : Js A := fun w =>
  match body w with
  | (c, w') =>
      match final w' with
      | (Normal _, w'') => (c, w'')
      | (Throw e, w'') => (Throw e, w'')
      end
  end.

Definition exec {A} (p : Js A) (w : World) : World := snd (p w).
Definition completion {A} (p : Js A) (w : World) : Completion A := fst (p w).

Definition effect (e : Effect) : Js unit := fun w =>
  (Normal (), set_effects (effects w ++ [e]) w).

(** Reading a property of [o]: a [TypeError] when [o] is [null] or
    [undefined]. *)
Definition deref {A} (o : option A) : Js A :=
  match o with
  | Some a => mret a
  | None => throw TypeError
  end.

(** *** The DOM and storage operations the scripts use *)

Definition getElementById (id : string) : Js (option Element) := fun w =>
  (Normal (document w !! id), w).

Definition update_element (id : string) (f : Element -> Element) : Js unit := fun w =>
  (Normal (), set_document (alter f id (document w)) w).

Definition DOMTokenList_remove (class : string) (l : list string) : list string :=
  List.filter (fun t => negb (String.eqb t class)) l.

Definition DOMTokenList_add (class : string) (l : list string) : list string :=
  if existsb (String.eqb class) l then l else l ++ [class].

Definition classList_remove (id class : string) : Js unit :=
  update_element id (fun e => set_classList (DOMTokenList_remove class (classList e)) e) ;;
  effect (ClassListRemove id class).

Definition classList_add (id class : string) : Js unit :=
  update_element id (fun e => set_classList (DOMTokenList_add class (classList e)) e) ;;
  effect (ClassListAdd id class).

Definition assign_innerHTML (id : string) (html : list Html) : Js unit :=
  update_element id (set_innerHTML html).

Definition localStorage_getItem (key : string) : Js (option string) := fun w =>
  (Normal (localStorage w !! key), w).

Definition localStorage_setItem (key text : string) : Js unit := fun w =>
  (Normal (), set_localStorage (<[key := text]> (localStorage w)) w).

Definition JSON_parse (text : string) : Js JSON.Value :=
  match JSON.parse text with
  | Some v => mret v
  | None => throw SyntaxError
  end.

(** [form.reset()]: every control goes back to its default. *)
Definition form_reset (id : string) : Js unit := fun w =>
  (Normal (),
   set_effects (effects w ++ [FormReset id])
     (set_checkedDemographics (defaultDemographics w)
        (set_document ((fun e => set_value (defaultValue e) e) <$> document w) w))).

(** ** The network

    A [fetch] settles in one of two ways; the body of a response that
    arrived either parses to an analysis result or makes
    [response.json()] reject. *)

Record Insights := {
  foot_traffic_score : Number;
  competition_density : Number;
  demographic_match : Number;
  category_gaps : list string;
  nearby_attractions : list string;
  risk_factors : list string;
  optimal_hours : list string
}.

Record Recommendation := {
  confidence_score : Number;
  reasoning : string;
  estimated_revenue_potential : string;
  setup_requirements : list string;
  recommended_duration : string;
  insights : option Insights
}.

(** A field that the backend may leave out is an [option]; [None] is
    JavaScript's [undefined]. *)
Record AnalysisResult := {
  success : bool;
  analysis_id : option string;
  recommendation : option Recommendation;
  error : option string
}.

Inductive Body :=
| Unparseable (e : Exn)
| Parsed (result : AnalysisResult).

Record Response := {
  ok : bool;
  body : Body
}.

Inductive Settled :=
| Rejects (reason : Exn)
| Resolves (response : Response).

Definition fetch (url method text : string) (net : Settled) : Js Response :=
  effect (Request url method text) ;;
  match net with
  | Rejects reason => throw reason
  | Resolves response => mret response
  end.

Definition Response_json (response : Response) : Js AnalysisResult :=
  match body response with
  | Unparseable e => throw e
  | Parsed result => mret result
  end.

(** [formData.get(name)] is [null] when the form has no such field. *)
Record SubmitEvent := {
  form_location : option string;
  form_business_type : option string
}.

(** [!v] for a string or [null]. *)
Definition falsy (v : option string) : bool :=
  match v with
  | None => true
  | Some s => String.eqb s EmptyString
  end.

(** [v || fallback] *)
Definition or_else (v : option string) (fallback : string) : string :=
  if falsy v then fallback else default fallback v.

(** A possibly undefined string inside a template literal. *)
Definition interpolate (v : option string) : string := default "undefined" v.

(** [s.length]: the number of UTF-16 code units of a string, which is
    held here as the bytes of its UTF-8 form.  A byte below 128 and the
    first byte of a sequence of two or three bytes stand for one unit, the
    first byte of a sequence of four for two (a surrogate pair), and a
    continuation byte for none. *)
Definition code_units (c : ascii) : nat :=
  let n := JSON.code c in
  if (n <? 128)%N then 1
  else if (n <? 192)%N then 0
  else if (n <? 240)%N then 1
  else 2.

Fixpoint String_length (s : string) : nat :=
  match s with
  | EmptyString => 0
  | String c s' => code_units c + String_length s'
  end.

(** What [validateLocation] uses of [event.target]: the value of the
    control and the one style property that is assigned. *)
Record InputTarget := {
  target_value : string;
  borderColor : string
}.

(** What the click listener uses of a feature card: [h3] is the
    [textContent] of the first [h3] inside the card, the result of
    [card.querySelector('h3')], and [None] when the card has none. *)
Record FeatureCard := {
  h3 : option string
}.

(** ** class ChoksApp *)
Module ChoksApp.

Definition showLoading : Js unit :=
  modal ← getElementById "loading-modal";
  match modal with
  | Some _ => classList_remove "loading-modal" "hidden"
  | None => mret ()
  end.

Definition hideLoading : Js unit :=
  modal ← getElementById "loading-modal";
  match modal with
  | Some _ => classList_add "loading-modal" "hidden"
  | None => mret ()
  end.

Definition getConfidenceClass (score : Number) : string :=
  if Number_ge score (Finite 70) then "confidence-high"
  else if Number_ge score (Finite 50) then "confidence-medium"
  else "confidence-low".

Definition metric_card (v : Html) (label : string) : Html :=
  div "metric-card" [div "metric-value" [v]; div "metric-label" [Text label]].

Definition heading4 (fa : string) (title : string) : Html :=
  Elem "h4" [] [icon fa; Text title].

Definition list_item (s : string) : Html := Elem "li" [] [Str s].

(** The template literal of [displayResults]. *)
Definition resultHtml (result : AnalysisResult) (recommendation : Recommendation)
    (insights : Insights) : list Html :=
  [div "recommendation-card"
    [div "recommendation-header"
       [Elem "h2" [] [Text "Location Analysis Results"];
        Elem "span"
          [("class",
            "confidence-score " +:+ getConfidenceClass (confidence_score recommendation))]
          [Num (Math_round (confidence_score recommendation)); Text "% Confidence"]];
     div "metrics-grid"
       [metric_card (Num (Math_round (foot_traffic_score insights))) "Foot Traffic Score";
        metric_card (Num (Math_round (competition_density insights))) "Market Opportunity";
        metric_card (Num (Math_round (demographic_match insights))) "Demographic Match";
        metric_card (Num (Number_of_nat (length (category_gaps insights)))) "Market Gaps"];
     div "analysis-details"
       ([Elem "h3" [] [Text "Key Insights"];
         Elem "p" [("class", "reasoning")] [Str (reasoning recommendation)];
         div "revenue-estimate"
           [heading4 "fas fa-dollar-sign" " Revenue Potential";
            Elem "p" [] [Str (estimated_revenue_potential recommendation)]];
         div "optimal-hours"
           [heading4 "fas fa-clock" " Recommended Hours";
            Elem "p" [] [Str (join ", " (optimal_hours insights))]]]
        ++ (if (0 <? length (category_gaps insights))%nat then
              [div "category-gaps"
                 [heading4 "fas fa-gap" " Market Opportunities";
                  Elem "p" []
                    [Text "Underserved categories: ";
                     Str (join ", " (category_gaps insights))]]]
            else [])
        ++ (if (0 <? length (nearby_attractions insights))%nat then
              [div "attractions"
                 [heading4 "fas fa-star" " Nearby Attractions";
                  Elem "p" [] [Str (join ", " (nearby_attractions insights))]]]
            else [])
        ++ (if (0 <? length (risk_factors insights))%nat then
              [div "risk-factors"
                 [heading4 "fas fa-exclamation-triangle" " Risk Factors";
                  Elem "ul" [] (List.map list_item (risk_factors insights))]]
            else [])
        ++ [div "setup-requirements"
              [heading4 "fas fa-list-check" " Setup Requirements";
               Elem "ul" [("class", "insights-list")]
                 (List.map list_item (setup_requirements recommendation))];
            div "duration-recommendation"
              [heading4 "fas fa-calendar" " Recommended Duration";
               Elem "p" [] [Str (recommended_duration recommendation)]]]);
     div "action-buttons"
       [Elem "button"
          [("class", "btn btn-primary");
           ("onclick",
            "choksApp.saveAnalysis('" +:+ interpolate (analysis_id result) +:+ "')")]
          [icon "fas fa-save"; Text " Save Analysis"];
        Elem "button"
          [("class", "btn btn-secondary"); ("onclick", "choksApp.newAnalysis()")]
          [icon "fas fa-plus"; Text " New Analysis"]]]].

Definition displayResults (result : AnalysisResult) : Js unit :=
  resultsSection ← getElementById "results-section";
  resultsContent ← getElementById "results-content";
  match resultsSection, resultsContent with
  | Some _, Some _ =>
      recommendation ← deref (recommendation result);
      insights ← deref (insights recommendation);
      let html := resultHtml result recommendation insights in
      assign_innerHTML "results-content" html ;;
      classList_remove "results-section" "hidden" ;;
      effect (ScrollIntoView "results-section")
  | _, _ => mret ()
  end.

Definition errorHtml (message : string) : list Html :=
  [Elem "div"
     [("class", "error-message");
      ("style",
       "background: #fef2f2; border: 1px solid #fecaca; color: #dc2626; padding: 1rem; border-radius: 8px; margin: 1rem 0;")]
     [icon "fas fa-exclamation-circle"; Text " "; Str message]].

Definition showError (message : string) : Js unit :=
  resultsContent ← getElementById "results-content";
  match resultsContent with
  | Some _ =>
      assign_innerHTML "results-content" (errorHtml message) ;;
      resultsSection ← getElementById "results-section";
      _ ← deref resultsSection;
      classList_remove "results-section" "hidden"
  | None => mret ()
  end.

Definition successHtml (message : string) : list Html :=
  [Elem "div"
     [("class", "success-message");
      ("style",
       "background: #f0fdf4; border: 1px solid #bbf7d0; color: #166534; padding: 1rem; border-radius: 8px; margin: 1rem 0;")]
     [icon "fas fa-check-circle"; Text " "; Str message]].

Definition showSuccess (message : string) : Js unit :=
  resultsContent ← getElementById "results-content";
  match resultsContent with
  | Some content =>
      assign_innerHTML "results-content" (successHtml message ++ innerHTML content)
  | None => mret ()
  end.

Definition savedRecord (id timestamp location : string) : JSON.Value :=
  JSON.Obj [("id", JSON.Str id);
            ("timestamp", JSON.Str timestamp);
            ("location", JSON.Str location)].

(** [now] is what [new Date().toISOString()] evaluates to. *)
Definition saveAnalysis (now : string) (analysisId : string) : Js unit :=
  item ← localStorage_getItem "savedAnalyses";
  savedAnalyses ← JSON_parse (or_else item "[]");
  match savedAnalyses with
  | JSON.Arr items =>
      location ← getElementById "location";
      location ← deref location;
      let pushed := items ++ [savedRecord analysisId now (value location)] in
      localStorage_setItem "savedAnalyses" (JSON.stringify (JSON.Arr pushed)) ;;
      showSuccess "Analysis saved successfully!"
  | _ => throw TypeError
  end.

Definition newAnalysis : Js unit :=
  form ← getElementById "location-form";
  _ ← deref form;
  form_reset "location-form" ;;
  resultsSection ← getElementById "results-section";
  _ ← deref resultsSection;
  classList_add "results-section" "hidden" ;;
  location ← getElementById "location";
  _ ← deref location;
  effect (Focus "location").

Definition analyzeRequest (location businessType : string)
    (targetDemographics : list string) : string :=
  JSON.stringify
    (JSON.Obj [("location", JSON.Str location);
               ("business_type", JSON.Str businessType);
               ("target_demographics", JSON.Arr (List.map JSON.Str targetDemographics))]).

(** [net] is the way the request settles, if one is made. *)
Definition handleLocationAnalysis (event : SubmitEvent) (net : Settled) : Js unit :=
  effect PreventDefault ;;
  let location := form_location event in
  let businessType := form_business_type event in
  targetDemographics ← (fun w => (Normal (checkedDemographics w), w));
  if falsy location || falsy businessType then
    showError "Please fill in all required fields"
  else
    showLoading ;;
    try_finally
      (try_catch
         (response ← fetch "/api/analyze" "POST"
                       (analyzeRequest (default EmptyString location)
                          (default EmptyString businessType) targetDemographics) net;
          result ← Response_json response;
          if ok response && success result then
            displayResults result
          else
            showError (or_else (error result) "Analysis failed"))
         (fun _ => showError "Network error: Please check your connection"))
      hideLoading.

Definition validateLocation (target : InputTarget) : InputTarget :=
  let value := target_value target in
  let isValid := (3 <? String_length value)%nat in
  {| target_value := value;
     borderColor := if isValid then "var(--success-color)" else "var(--border-color)" |}.

End ChoksApp.

(** ** class Analytics *)
Module Analytics.

Definition sendEvent (eventType : string) (data : JSON.Value) (net : Settled) : Js unit :=
  try_catch
    (_ ← fetch "/api/analytics" "POST"
           (JSON.stringify (JSON.Obj [("event_type", JSON.Str eventType); ("data", data)]))
           net;
     mret ())
    (fun error => effect (ConsoleDebug "Analytics error:" error)).

Definition trackPageView (pathname now userAgent : string) (net : Settled) : Js unit :=
  sendEvent "page_view"
    (JSON.Obj [("page", JSON.Str pathname);
               ("timestamp", JSON.Str now);
               ("user_agent", JSON.Str userAgent)])
    net.

(** The listener that [bindAnalyticsEvents] puts on the form. *)
Definition onSubmit (net : Settled) : Js unit :=
  business_type ← getElementById "business_type";
  business_type ← deref business_type;
  checked ← (fun w => (Normal (checkedDemographics w), w));
  sendEvent "analysis_started"
    (JSON.Obj [("business_type", JSON.Str (value business_type));
               ("has_demographics", JSON.Bool (0 <? length checked)%nat)])
    net.

(** The listener that [bindAnalyticsEvents] puts on a feature card. *)
Definition onFeatureCardClick (card : FeatureCard) (net : Settled) : Js unit :=
  heading ← deref (h3 card);
  sendEvent "feature_card_click" (JSON.Obj [("feature", JSON.Str heading)]) net.

End Analytics.

(** ** Sessions and observations *)

(** What the user and the environment can do to a loaded page.  A handler
    runs to completion; an exception that leaves it ends that handler
    only. *)
Inductive Action :=
| Submit (event : SubmitEvent) (net : Settled)
| NewAnalysis
| SaveAnalysis (now analysisId : string)
| Edit (id text : string)
| Emit (eventType : string) (data : JSON.Value) (net : Settled).

Definition edit (id text : string) : Js unit := update_element id (set_value text).

Definition perform (a : Action) : Js unit :=
  match a with
  | Submit event net => ChoksApp.handleLocationAnalysis event net
  | NewAnalysis => ChoksApp.newAnalysis
  | SaveAnalysis now analysisId => ChoksApp.saveAnalysis now analysisId
  | Edit id text => edit id text
  | Emit eventType data net => Analytics.sendEvent eventType data net
  end.

Definition run (actions : list Action) (w : World) : World :=
  fold_left (fun w a => exec (perform a) w) actions w.

(** [n] saves, the user editing the location field before each. *)
Fixpoint saves (l : list (string * string * string)) : Js unit :=
  match l with
  | [] => mret ()
  | (analysisId, now, location) :: rest =>
      edit "location" location ;;
      ChoksApp.saveAnalysis now analysisId ;;
      saves rest
  end.


(** The persisted sequence, read the way [saveAnalysis] reads it. *)
Definition savedAnalyses (w : World) : option JSON.Value :=
  JSON.parse (or_else (localStorage w !! "savedAnalyses") "[]").

Definition content (w : World) : list Html :=
  default [] (innerHTML <$> document w !! "results-content").

Definition is_hidden (id : string) (w : World) : bool :=
  match document w !! id with
  | Some e => existsb (String.eqb "hidden") (classList e)
  | None => false
  end.

(** Result cards and error panels anywhere in a piece of markup. *)
Definition panels (forest : list Html) : list Html :=
  getElementsByClassName "recommendation-card" forest ++
  getElementsByClassName "error-message" forest.


Definition is_request (e : Effect) : bool :=
  match e with
  | Request _ _ _ => true
  | _ => false
  end.

Definition on_element (id : string) (e : Effect) : bool :=
  match e with
  | ClassListRemove i _ | ClassListAdd i _ | ScrollIntoView i
  | FormReset i | Focus i => String.eqb i id
  | _ => false
  end.

(** The effect of [showLoading] or [hideLoading] on a page: none when the
    page has no loading modal. *)
Definition indicator (op : string -> string -> Effect) (w : World) : list Effect :=
  match document w !! "loading-modal" with
  | Some _ => [op "loading-modal" "hidden"]
  | None => []
  end.

(** *** A page and a response to try things on *)

Definition blank : Element :=
  {| classList := []; innerHTML := []; value := EmptyString; defaultValue := EmptyString |}.

Definition page : World :=
  {| document :=
       <["location-form" := blank]>
       (<["location" := set_value "Downtown Plaza" blank]>
       (<["business_type" := set_value "food_truck" blank]>
       (<["loading-modal" := set_classList ["modal"; "hidden"] blank]>
       (<["results-section" := set_classList ["hidden"] blank]>
       (<["results-content" := blank]> ∅)))));
     checkedDemographics := ["young_professionals"];
     defaultDemographics := [];
     localStorage := ∅;
     effects := [] |}.

Definition submission : SubmitEvent :=
  {| form_location := Some "Downtown Plaza"; form_business_type := Some "food_truck" |}.





(** *** Frames

    [preserves R p]: every run of [p] relates the world before to the
    world after. *)
Definition preserves (R : World -> World -> Prop) {A} (p : Js A) : Prop :=
  forall w, R w (exec p w).

(** The effects added are none of the kind [noisy]. *)
Definition quiet (noisy : Effect -> bool) (w w' : World) : Prop :=
  exists new, effects w' = effects w ++ new /\ List.filter noisy new = [].

(** The element [id] is what it was. *)
Definition keeps (id : string) (w w' : World) : Prop :=
  document w' !! id = document w !! id.

(** Nothing but the log of effects differs. *)
Definition same_page (w1 w2 : World) : Prop :=
  document w1 = document w2 /\
  checkedDemographics w1 = checkedDemographics w2 /\
  defaultDemographics w1 = defaultDemographics w2 /\
  localStorage w1 = localStorage w2.

(** A statement that does not read the log of effects. *)
Definition oblivious {A} (p : Js A) : Prop :=
  forall w1 w2, same_page w1 w2 ->
    completion p w1 = completion p w2 /\ same_page (exec p w1) (exec p w2).

(** At most one result card or error panel in the results area. *)
Definition at_most_one (w : World) : Prop := length (panels (content w)) <= 1.

Definition stays_single (w w' : World) : Prop := at_most_one w -> at_most_one w'.


Definition network_error : string := "Network error: Please check your connection".

(** The [try] statement of [handleLocationAnalysis] from the point where
    the request has been issued. *)
Definition settle (net : Settled) : Js unit :=
  try_catch
    (response ← match net with
                 | Rejects reason => throw reason
                 | Resolves response => mret response
                 end;
     result ← Response_json response;
     if ok response && success result then ChoksApp.displayResults result
     else ChoksApp.showError (or_else (error result) "Analysis failed"))
    (fun _ => ChoksApp.showError network_error).

(** The world in which the analyze request of a valid submission is
    pending: the default action is prevented, [showLoading] has run and the
    request has been issued. *)
Definition pending (loc biz : string) (w : World) : World :=
  exec (effect (Request "/api/analyze" "POST"
                  (ChoksApp.analyzeRequest loc biz (checkedDemographics w))))
    (exec ChoksApp.showLoading (exec (effect PreventDefault) w)).

Definition on_modal_or_request (e : Effect) : bool :=
  on_element "loading-modal" e || is_request e.

(** The response that makes [handleLocationAnalysis] call
    [displayResults]: it arrived, its status is 2xx, its body parses and
    [success] holds. *)
Definition renders (net : Settled) : bool :=
  match net with
  | Resolves response =>
      match body response with
      | Parsed result => ok response && success result
      | Unparseable _ => false
      end
  | Rejects _ => false
  end.

(** The submission passes the check of the two required fields. *)
Definition passes_validation (event : SubmitEvent) : bool :=
  negb (falsy (form_location event) || falsy (form_business_type event)).

(** Only class lists and markup differ: the page has the same elements,
    every control has the value and the default it had; the boxes and the
    storage are what they were. *)
Definition same_inputs (w w' : World) : Prop :=
  (forall id, (fun e => (value e, defaultValue e)) <$> document w' !! id =
              (fun e => (value e, defaultValue e)) <$> document w !! id) /\
  checkedDemographics w' = checkedDemographics w /\
  defaultDemographics w' = defaultDemographics w /\
  localStorage w' = localStorage w.

(** The page has the same elements; what they hold may differ. *)
Definition same_elements (w w' : World) : Prop :=
  forall id, is_Some (document w' !! id) <-> is_Some (document w !! id).

(** The page has its results section, or it has no results content. *)
Definition section_if_content (w : World) : Prop :=
  is_Some (document w !! "results-section") \/ document w !! "results-content" = None.

Definition is_preventDefault (e : Effect) : bool :=
  match e with
  | PreventDefault => true
  | _ => false
  end.

(** The payload has the two objects that [displayResults] reads. *)
Definition well_shaped (result : AnalysisResult) : bool :=
  match recommendation result with
  | Some recommendation =>
      match insights recommendation with
      | Some _ => true
      | None => false
      end
  | None => false
  end.

(** The response that ends in a rendered result card. *)
Definition displays (net : Settled) : bool :=
  match net with
  | Resolves response =>
      match body response with
      | Parsed result => ok response && success result && well_shaped result
      | Unparseable _ => false
      end
  | Rejects _ => false
  end.

(** The body of the analyze request that a submission sends. *)
Definition requestOf (event : SubmitEvent) (w : World) : Effect :=
  Request "/api/analyze" "POST"
    (ChoksApp.analyzeRequest (default EmptyString (form_location event))
       (default EmptyString (form_business_type event)) (checkedDemographics w)).

(** The effects of one analytics event: the request and, when it is
    rejected, the line on the console. *)
Definition analyticsEffects (text : string) (net : Settled) : list Effect :=
  Request "/api/analytics" "POST" text ::
  match net with
  | Rejects reason => [ConsoleDebug "Analytics error:" reason]
  | Resolves _ => []
  end.

(** * Facts

    ** The JSON codec *)
Module JSONFacts.
Import JSON.

Lemma append_cons (x : ascii) (a b : string) : String x a +:+ b = String x (a +:+ b).
Proof. reflexivity. Qed.

Lemma append_nil_l (b : string) : EmptyString +:+ b = b.
Proof. reflexivity. Qed.

Lemma append_assoc (a b c : string) : (a +:+ b) +:+ c = a +:+ (b +:+ c).
Proof.
  induction a as [|x a IH]; [done|]. by rewrite !append_cons, IH.
Qed.

Lemma append_nil_r (a : string) : a +:+ EmptyString = a.
Proof. induction a as [|x a IH]; [done|]. by rewrite append_cons, IH. Qed.

Lemma length_append (a b : string) :
  String.length (a +:+ b) = String.length a + String.length b.
Proof.
  induction a as [|x a IH]; [done|]. rewrite append_cons. cbn [String.length]. by rewrite IH.
Qed.

(** *** String literals *)

Lemma parse_chars_escape_char c t :
  parse_chars (escape_char c +:+ t) =
  match parse_chars t with
  | Some (str, rest) => Some (String c str, rest)
  | None => None
  end.
Proof.
  destruct c as [[] [] [] [] [] [] [] []]; reflexivity.
Qed.

Lemma parse_chars_escape s rest :
  parse_chars (escape s +:+ String quote rest) = Some (s, rest).
Proof.
  induction s as [|c s IH]; [reflexivity|].
  cbn [escape]. by rewrite append_assoc, parse_chars_escape_char, IH.
Qed.

Lemma quoted_append s rest :
  quoted s +:+ rest = String quote (escape s +:+ String quote rest).
Proof. unfold quoted. by rewrite append_cons, append_assoc. Qed.

(** *** Number literals *)

Lemma head_is_append P t rest :
  head_is P (t +:+ rest) = if nonempty t then head_is P t else head_is P rest.
Proof. by destruct t. Qed.

Lemma starts_with_head c s :
  head_is (fun d => Ascii.eqb d c) s = false -> starts_with c s = None.
Proof. destruct s as [|d s]; [done|]. cbn. by intros ->. Qed.

Lemma number_end_split rest :
  number_end rest = true ->
  head_is is_digit rest = false /\ head_is is_point rest = false /\ head_is is_e rest = false.
Proof.
  unfold number_end. destruct rest as [|c rest]; [done|]. cbn.
  destruct (is_digit c), (is_point c), (is_e c); done.
Qed.

Lemma digit_not_minus c : is_digit c = true -> is_minus c = false.
Proof. destruct c as [[] [] [] [] [] [] [] []]; done. Qed.

Lemma e_not_digit c : is_e c = true -> is_digit c = false.
Proof. destruct c as [[] [] [] [] [] [] [] []]; done. Qed.

Lemma e_not_point c : is_e c = true -> is_point c = false.
Proof. destruct c as [[] [] [] [] [] [] [] []]; done. Qed.

Lemma digit_not_sign c : is_digit c = true -> Ascii.eqb c "+" || Ascii.eqb c "-" = false.
Proof. destruct c as [[] [] [] [] [] [] [] []]; done. Qed.

Lemma span_digits_stop rest :
  head_is is_digit rest = false -> span_digits rest = (EmptyString, rest).
Proof. destruct rest as [|c rest]; [done|]. cbn. by intros ->. Qed.

Lemma span_digits_stable s ds r rest :
  span_digits s = (ds, r) ->
  head_is is_digit rest = false ->
  span_digits (ds +:+ rest) = (ds, rest).
Proof.
  revert ds r. induction s as [|c s IH]; intros ds r Hs Hrest.
  - injection Hs as <- <-. by apply span_digits_stop.
  - cbn in Hs. destruct (is_digit c) eqn:Hc.
    + destruct (span_digits s) as [ds' r'] eqn:Hs'. injection Hs as <- <-.
      rewrite append_cons. cbn. by rewrite Hc, (IH _ _ eq_refl Hrest).
    + injection Hs as <- <-. by apply span_digits_stop.
Qed.

Lemma span_digits_head s ds r :
  span_digits s = (ds, r) -> nonempty ds = true -> head_is is_digit ds = true.
Proof.
  destruct s as [|c s]; cbn.
  - by intros [= <- <-].
  - destruct (is_digit c) eqn:Hc.
    + destruct (span_digits s). by intros [= <- <-].
    + by intros [= <- <-].
Qed.

Lemma scan_sign_stable s sign r rest :
  scan_sign s = (sign, r) ->
  head_is is_minus rest = false ->
  scan_sign (sign +:+ rest) = (sign, rest).
Proof.
  unfold scan_sign. destruct (starts_with "-" s); intros [= <- <-] Hrest; [done|].
  rewrite append_nil_l. by rewrite starts_with_head.
Qed.

Lemma scan_int_stable s int r rest :
  scan_int s = Some (int, r) ->
  head_is is_digit rest = false ->
  scan_int (int +:+ rest) = Some (int, rest) /\ head_is is_digit int = true.
Proof.
  destruct s as [|c s]; [done|]. cbn.
  destruct (Ascii.eqb c "0") eqn:H0.
  - intros [= <- <-] _. rewrite append_cons, append_nil_l. cbn. rewrite H0.
    apply Ascii.eqb_eq in H0 as ->. done.
  - destruct (is_digit c) eqn:Hc; [|done].
    destruct (span_digits s) as [ds r'] eqn:Hs. intros [= <- <-] Hrest.
    rewrite append_cons. cbn. rewrite H0, Hc.
    by rewrite (span_digits_stable _ _ _ _ Hs Hrest).
Qed.

Lemma scan_frac_stable s frac r rest :
  scan_frac s = Some (frac, r) ->
  head_is is_digit rest = false ->
  head_is is_point rest = false ->
  scan_frac (frac +:+ rest) = Some (frac, rest) /\
  (frac = EmptyString \/ head_is is_point frac = true).
Proof.
  unfold scan_frac. destruct (starts_with "." s) as [r0|].
  - destruct (span_digits r0) as [ds r'] eqn:Hs.
    destruct (nonempty ds) eqn:Hne; [|done]. intros [= <- <-] Hd Hp.
    rewrite append_cons. cbn. rewrite (span_digits_stable _ _ _ _ Hs Hd), Hne. auto.
  - intros [= <- <-] Hd Hp. rewrite append_nil_l. rewrite starts_with_head by done. auto.
Qed.

Lemma scan_exp_stable s exp r rest :
  scan_exp s = Some (exp, r) ->
  head_is is_digit rest = false ->
  head_is is_e rest = false ->
  scan_exp (exp +:+ rest) = Some (exp, rest) /\
  (exp = EmptyString \/ head_is is_e exp = true).
Proof.
  destruct s as [|e s]; cbn.
  - intros [= <- <-] Hd He. rewrite append_nil_l. split; [|auto].
    destruct rest as [|c rest]; [done|]. cbn in *. fold (is_e c). by rewrite He.
  - fold (is_e e). destruct (is_e e) eqn:Hee.
    + destruct s as [|g s'].
      * done.
      * destruct (Ascii.eqb g "+" || Ascii.eqb g "-") eqn:Hg.
        -- destruct (span_digits s') as [ds r'] eqn:Hs.
           destruct (nonempty ds) eqn:Hne; [|done]. intros [= <- <-] Hd He.
           split; [|right; done]. rewrite !append_cons, append_nil_l. cbn.
           fold (is_e e). rewrite Hee, Hg.
           by rewrite (span_digits_stable _ _ _ _ Hs Hd), Hne.
        -- destruct (span_digits (String g s')) as [ds r'] eqn:Hs.
           destruct (nonempty ds) eqn:Hne; [|done]. intros [= <- <-] Hd He.
           split; [|right; done]. rewrite !append_cons, append_nil_l. cbn.
           fold (is_e e). rewrite Hee.
           pose proof (span_digits_head _ _ _ Hs Hne) as Hh.
           destruct ds as [|d ds]; [done|]. cbn in Hh.
           rewrite append_cons. rewrite (digit_not_sign _ Hh).
           rewrite <- append_cons.
           by rewrite (span_digits_stable _ _ _ _ Hs Hd).
    + intros [= <- <-] Hd He. rewrite append_nil_l. split; [|auto].
      destruct rest as [|c rest]; [done|]. cbn in *. fold (is_e c). by rewrite He.
Qed.

Lemma point_not_digit c : is_point c = true -> is_digit c = false.
Proof. destruct c as [[] [] [] [] [] [] [] []]; done. Qed.

Lemma head_is_after (P Q : ascii -> bool) t rest :
  t = EmptyString \/ head_is Q t = true ->
  (forall c, Q c = true -> P c = false) ->
  head_is P rest = false ->
  head_is P (t +:+ rest) = false.
Proof.
  intros [-> | Ht] HQP Hrest; [done|].
  destruct t as [|c t]; [done|]. rewrite append_cons. cbn in *. auto.
Qed.

Lemma scan_number_stable s literal r rest :
  scan_number s = Some (literal, r) ->
  number_end rest = true ->
  scan_number (literal +:+ rest) = Some (literal, rest) /\
  head_is (fun c => is_minus c || is_digit c) literal = true.
Proof.
  unfold scan_number.
  destruct (scan_sign s) as [sign s1] eqn:Hsign.
  destruct (scan_int s1) as [[int s2]|] eqn:Hint; [|done].
  destruct (scan_frac s2) as [[frac s3]|] eqn:Hfrac; [|done].
  destruct (scan_exp s3) as [[exp r']|] eqn:Hexp; [|done].
  intros [= <- <-] Hend.
  apply number_end_split in Hend as (Hd & Hp & He).
  destruct (scan_exp_stable _ _ _ _ Hexp Hd He) as [Hexp' Hexp_head].
  assert (head_is is_digit (exp +:+ rest) = false) as Hd1
    by (apply (head_is_after _ is_e); auto using e_not_digit).
  assert (head_is is_point (exp +:+ rest) = false) as Hp1
    by (apply (head_is_after _ is_e); auto using e_not_point).
  destruct (scan_frac_stable _ _ _ _ Hfrac Hd1 Hp1) as [Hfrac' Hfrac_head].
  assert (head_is is_digit (frac +:+ exp +:+ rest) = false) as Hd2
    by (apply (head_is_after _ is_point); auto using point_not_digit).
  destruct (scan_int_stable _ _ _ _ Hint Hd2) as [Hint' Hint_head].
  assert (head_is is_minus (int +:+ frac +:+ exp +:+ rest) = false) as Hm
    by (destruct int as [|c int]; [done|]; rewrite append_cons; apply digit_not_minus, Hint_head).
  rewrite !append_assoc.
  rewrite (scan_sign_stable _ _ _ _ Hsign Hm), Hint', Hfrac', Hexp'.
  split; [done|].
  unfold scan_sign in Hsign. destruct (starts_with "-" s); injection Hsign as <- <-.
  - done.
  - rewrite append_nil_l. destruct int as [|c int]; [done|]. rewrite append_cons.
    cbn in *. rewrite Hint_head. apply orb_true_r.
Qed.

(** *** Values *)

Lemma Value_ind' (P : Value -> Prop) :
  P Null ->
  (forall b, P (Bool b)) ->
  (forall literal, P (Number literal)) ->
  (forall s, P (Str s)) ->
  (forall items, Forall P items -> P (Arr items)) ->
  (forall members, Forall (fun m => P (snd m)) members -> P (Obj members)) ->
  forall v, P v.
Proof.
  intros HNull HBool HNumber HStr HArr HObj.
  fix IH 1. intros [|b|literal|s|items|members].
  - exact HNull.
  - apply HBool.
  - apply HNumber.
  - apply HStr.
  - apply HArr. induction items as [|x items IHitems]; constructor; [apply IH | exact IHitems].
  - apply HObj. induction members as [|m members IHm]; constructor; [apply IH | exact IHm].
Qed.

Lemma well_formed_number literal :
  well_formed (Number literal) = true -> scan_number literal = Some (literal, EmptyString).
Proof.
  cbn. destruct (scan_number literal) as [[l [|c r]]|]; [|done..].
  by intros ->%String.eqb_eq.
Qed.

Lemma start_of_number c :
  is_minus c || is_digit c = true ->
  is_ws c = false /\ (code c =? 34)%N = false /\ (code c =? 91)%N = false /\
  (code c =? 123)%N = false /\ (code c =? 110)%N = false /\
  (code c =? 116)%N = false /\ (code c =? 102)%N = false /\
  Ascii.eqb c "]" = false /\ Ascii.eqb c "}" = false.
Proof. destruct c as [[] [] [] [] [] [] [] []]; cbn; intros; split_and!; done. Qed.

(** A printed value starts with a character that is neither white space
    nor a closing bracket. *)
Lemma stringify_start v rest :
  well_formed v = true ->
  exists c t, stringify v +:+ rest = String c t /\ is_ws c = false /\
    Ascii.eqb c "]" = false /\ Ascii.eqb c "}" = false.
Proof.
  destruct v as [|[]|literal|s|items|members]; intros Hwf.
  1-3, 5-7: (eexists _, _; split; [ reflexivity || (cbn [stringify]; rewrite ?quoted_append, ?append_cons; reflexivity) | done ]).
  apply well_formed_number in Hwf.
  destruct (scan_number_stable _ _ _ EmptyString Hwf eq_refl) as [_ Hhead].
  cbn [stringify]. destruct literal as [|c l]; [done|]. cbn in Hhead.
  apply start_of_number in Hhead as (Hws & _ & _ & _ & _ & _ & _ & Hb1 & Hb2).
  rewrite append_cons. by eexists _, _.
Qed.

Lemma skip_ws_stringify v rest :
  well_formed v = true -> skip_ws (stringify v +:+ rest) = stringify v +:+ rest.
Proof.
  intros Hwf. destruct (stringify_start v rest Hwf) as (c & t & -> & Hws & _).
  cbn. by rewrite Hws.
Qed.

Ltac closed_char c :=
  lazymatch c with
  | Ascii _ _ _ _ _ _ _ _ => idtac
  | quote => idtac
  | backslash => idtac
  end.

Ltac eval_chars :=
  repeat match goal with
  | |- context [is_ws ?c] =>
      closed_char c;
      let y := eval vm_compute in (is_ws c) in change (is_ws c) with y
  | |- context [(code ?c =? ?n)%N] =>
      closed_char c;
      let y := eval vm_compute in (code c =? n)%N in change (code c =? n)%N with y
  | |- context [Ascii.eqb ?c ?d] =>
      closed_char c; closed_char d;
      let y := eval vm_compute in (Ascii.eqb c d) in change (Ascii.eqb c d) with y
  end; cbv beta iota.

Ltac scan := repeat (progress (cbn [skip_ws starts_with strip_prefix]; eval_chars)).

Lemma join_cons sep a b l : join sep (a :: b :: l) = a +:+ sep +:+ join sep (b :: l).
Proof. reflexivity. Qed.

Lemma parse_elements_stringify items :
  items ≠ [] ->
  Forall (fun x => well_formed x = true /\ reads_back x) items ->
  forall fuel rest,
    list_sum (List.map (fun x => S (size x)) items) <= fuel ->
    parse_elements fuel (join "," (List.map stringify items) +:+ "]" +:+ rest) =
    Some (items, rest).
Proof.
  induction items as [|x items IH]; [done|]. intros _ Hall fuel rest Hfuel.
  apply Forall_cons in Hall as [[Hwf Hx] Hall].
  cbn [List.map list_sum foldr] in Hfuel.
  destruct fuel as [|fuel]; [lia|]. cbn [parse_elements].
  destruct items as [|y items].
  - cbn [List.map join]. rewrite Hx by (done || cbn in *; lia).
    rewrite append_cons, append_nil_l. scan. done.
  - cbn [List.map] in *. rewrite join_cons, !append_assoc.
    rewrite Hx by (done || cbn in *; lia).
    rewrite append_cons, append_nil_l. scan.
    rewrite IH; [done | done | done |].
    cbn in *. lia.
Qed.

Lemma parse_members_stringify members :
  members ≠ [] ->
  Forall (fun m => well_formed (snd m) = true /\ reads_back (snd m)) members ->
  forall fuel rest,
    list_sum (List.map (fun m => S (size (snd m))) members) <= fuel ->
    parse_members fuel
      (join "," (List.map (fun m => quoted (fst m) +:+ ":" +:+ stringify (snd m)) members)
       +:+ "}" +:+ rest) =
    Some (members, rest).
Proof.
  induction members as [|[k x] members IH]; [done|]. intros _ Hall fuel rest Hfuel.
  apply Forall_cons in Hall as [[Hwf Hx] Hall]. cbn [fst snd] in *.
  cbn [List.map list_sum foldr snd] in Hfuel.
  destruct fuel as [|fuel]; [lia|]. cbn [parse_members].
  destruct members as [|m members].
  - cbn [List.map join fst snd]. rewrite !append_assoc, quoted_append.
    scan. rewrite parse_chars_escape.
    rewrite append_cons, append_nil_l. scan.
    rewrite Hx by (done || cbn in *; lia).
    rewrite append_cons, append_nil_l. scan.
    done.
  - cbn [List.map fst snd] in *. rewrite join_cons, !append_assoc, quoted_append.
    scan. rewrite parse_chars_escape.
    rewrite append_cons, append_nil_l. scan.
    rewrite Hx by (done || cbn in *; lia).
    rewrite append_cons, append_nil_l. scan.
    rewrite IH; [done | done | done |].
    cbn in *. lia.
Qed.

Lemma join_head sep a l r :
  join sep (a :: l) +:+ r =
  a +:+ match l with [] => r | _ :: _ => sep +:+ join sep l +:+ r end.
Proof. destruct l; [done|]. by rewrite join_cons, !append_assoc. Qed.

Lemma no_bracket_before v r (b : ascii) :
  well_formed v = true -> b = "]"%char \/ b = "}"%char ->
  starts_with b (skip_ws (stringify v +:+ r)) = None.
Proof.
  intros Hwf Hb. destruct (stringify_start v r Hwf) as (c & t & -> & Hws & H1 & H2).
  cbn. rewrite Hws. cbn. by destruct Hb as [-> | ->]; rewrite ?H1, ?H2.
Qed.

Lemma forallb_Forall {A} (f : A -> bool) l :
  forallb f l = true -> Forall (fun x => f x = true) l.
Proof.
  induction l as [|x l IH]; [constructor|]. cbn.
  intros [Hx Hl]%andb_true_iff. constructor; auto.
Qed.

Lemma Forall_both {A} (P Q : A -> Prop) l :
  Forall P l -> Forall (fun x => P x -> Q x) l -> Forall (fun x => P x /\ Q x) l.
Proof. induction 1; inversion 1; constructor; auto. Qed.

Lemma stringify_reads_back v : well_formed v = true -> reads_back v.
Proof.
  induction v as [|b|literal|s|items IH|members IH] using Value_ind';
    intros Hwf fuel rest Hfuel Hend;
    (destruct fuel as [|fuel]; [cbn in Hfuel; lia|]).
  - cbn [stringify parse_value]. rewrite !append_cons, append_nil_l. scan. done.
  - destruct b; cbn [stringify parse_value]; rewrite !append_cons, append_nil_l; scan; done.
  - pose proof (well_formed_number _ Hwf) as Hscan.
    destruct (scan_number_stable _ _ _ rest Hscan Hend) as [Hrest Hhead].
    cbn [stringify parse_value].
    destruct literal as [|c l]; [done|]. cbn in Hhead.
    apply start_of_number in Hhead as (Hws & H1 & H2 & H3 & H4 & H5 & H6 & _).
    rewrite append_cons. cbn [skip_ws]. rewrite Hws, H1, H2, H3, H4, H5, H6.
    rewrite <- append_cons. by rewrite Hrest.
  - cbn [stringify parse_value]. rewrite quoted_append. scan.
    by rewrite parse_chars_escape.
  - cbn [stringify parse_value]. rewrite !append_assoc, !append_cons, !append_nil_l. scan.
    cbn [well_formed] in Hwf. cbn [size] in Hfuel.
    destruct items as [|x items].
    + cbn [List.map join]. rewrite append_nil_l. scan. done.
    + assert (Forall (fun x => well_formed x = true /\ reads_back x) (x :: items)) as Hall.
      { apply Forall_both; [by apply forallb_Forall | done]. }
      change (String "]" rest) with ("]" +:+ rest).
      assert (starts_with "]" (skip_ws (join "," (List.map stringify (x :: items))
                +:+ "]" +:+ rest)) = None) as ->.
      { cbn [List.map]. rewrite join_head. apply no_bracket_before; [|by left].
        by apply Forall_cons in Hall as [[? _] _]. }
      rewrite (parse_elements_stringify (x :: items)); [done | done | done | lia].
  - cbn [stringify parse_value]. rewrite !append_assoc, !append_cons, !append_nil_l. scan.
    cbn [well_formed] in Hwf. cbn [size] in Hfuel.
    destruct members as [|m members].
    + cbn [List.map join]. rewrite append_nil_l. scan. done.
    + assert (Forall (fun m => well_formed (snd m) = true /\ reads_back (snd m))
                (m :: members)) as Hall.
      { apply (Forall_both (fun m => well_formed (snd m) = true));
          [by apply forallb_Forall | done]. }
      change (String "}" rest) with ("}" +:+ rest).
      assert (starts_with "}" (skip_ws
                (join "," (List.map (fun m => quoted (fst m) +:+ ":" +:+ stringify (snd m))
                             (m :: members)) +:+ "}" +:+ rest)) = None) as ->.
      { cbn [List.map]. rewrite join_head, !append_assoc, quoted_append. by scan. }
      rewrite (parse_members_stringify (m :: members)); [done | done | done | lia].
Qed.

Lemma length_join items :
  Forall (fun x => size x <= String.length (stringify x)) items ->
  list_sum (List.map (fun x => S (size x)) items) <=
  S (String.length (join "," (List.map stringify items))).
Proof.
  induction 1 as [|x items Hx _ IH]; [cbn; lia|].
  destruct items as [|y items].
  - cbn. lia.
  - cbn [List.map] in *. rewrite join_cons, !length_append.
    cbn [list_sum foldr String.length] in *. lia.
Qed.

Lemma length_join_members members :
  Forall (fun m => size (snd m) <= String.length (stringify (snd m))) members ->
  list_sum (List.map (fun m => S (size (snd m))) members) <=
  S (String.length
       (join "," (List.map (fun m => quoted (fst m) +:+ ":" +:+ stringify (snd m)) members))).
Proof.
  induction 1 as [|x items Hx _ IH]; [cbn; lia|].
  destruct items as [|y items].
  - cbn [List.map join list_sum foldr]. rewrite !length_append. lia.
  - cbn [List.map] in *. rewrite join_cons, !length_append.
    cbn [list_sum foldr String.length] in *. lia.
Qed.

Lemma size_le_length v :
  well_formed v = true -> size v <= String.length (stringify v).
Proof.
  induction v as [|b|literal|s|items IH|members IH] using Value_ind'; intros Hwf.
  - cbn. lia.
  - destruct b; cbn; lia.
  - apply well_formed_number in Hwf.
    destruct (scan_number_stable _ _ _ EmptyString Hwf eq_refl) as [_ Hhead].
    destruct literal; [done|]. cbn. lia.
  - cbn. lia.
  - cbn [size stringify]. rewrite !length_append. cbn [String.length].
    cbn [well_formed] in Hwf.
    pose proof (length_join items) as Hlen. 
    assert (Forall (fun x => size x <= String.length (stringify x)) items) as Hall.
    { eapply Forall_impl; [apply (Forall_both _ _ _ (forallb_Forall _ _ Hwf) IH)|].
      by intros x [_ ?]. }
    specialize (Hlen Hall). lia.
  - cbn [size stringify]. rewrite !length_append. cbn [String.length].
    cbn [well_formed] in Hwf.
    pose proof (length_join_members members) as Hlen.
    assert (Forall (fun m => size (snd m) <= String.length (stringify (snd m))) members)
      as Hall.
    { eapply Forall_impl;
        [apply (Forall_both (fun m => well_formed (snd m) = true) _ _
                  (forallb_Forall _ _ Hwf) IH)|].
      by intros x [_ ?]. }
    specialize (Hlen Hall). lia.
Qed.

(** Printing a value and parsing the text gives the value back. *)
Lemma parse_stringify v : well_formed v = true -> parse (stringify v) = Some v.
Proof.
  intros Hwf. unfold parse.
  pose proof (stringify_reads_back v Hwf (2 * String.length (stringify v) + 2) EmptyString)
    as Hback.
  rewrite append_nil_r in Hback. rewrite Hback; [done| |done].
  pose proof (size_le_length v Hwf). lia.
Qed.

(** What the parser returns is well formed. *)
Lemma parse_value_well_formed fuel :
  (forall s v r, parse_value fuel s = Some (v, r) -> well_formed v = true) /\
  (forall s vs r, parse_elements fuel s = Some (vs, r) -> forallb well_formed vs = true) /\
  (forall s ms r, parse_members fuel s = Some (ms, r) ->
                  forallb (fun m => well_formed (snd m)) ms = true).
Proof.
  induction fuel as [|fuel (IHv & IHe & IHm)]; [done|].
  split_and!.
  - intros s v r. cbn [parse_value].
    repeat case_match; try done; intros [= <- <-]; try done.
    + cbn. eauto.
    + cbn. eauto.
    + cbn [well_formed].
      match goal with H : scan_number _ = Some _ |- _ =>
        destruct (scan_number_stable _ _ _ EmptyString H eq_refl) as [Hs _] end.
      rewrite append_nil_r in Hs. rewrite Hs. apply String.eqb_refl.
  - intros s vs r. cbn [parse_elements].
    repeat case_match; try done; intros [= <- <-]; cbn [forallb].
    + apply andb_true_iff. eauto.
    + apply andb_true_iff. eauto.
  - intros s ms r. cbn [parse_members].
    repeat case_match; try done; intros [= <- <-]; cbn [forallb snd].
    + apply andb_true_iff. eauto.
    + apply andb_true_iff. eauto.
Qed.

Lemma parse_well_formed s v : parse s = Some v -> well_formed v = true.
Proof.
  unfold parse. destruct (parse_value _ s) as [[v' r]|] eqn:Hp; [|done].
  destruct (skip_ws r); [|done]. intros [= <-].
  by apply (proj1 (parse_value_well_formed _)) in Hp.
Qed.

(** *** The fuel of [parse] *)

Lemma list_size_cons x vs : list_size (x :: vs) = S (size x) + list_size vs.
Proof. reflexivity. Qed.

Lemma members_size_cons m ms : members_size (m :: ms) = S (size (snd m)) + members_size ms.
Proof. reflexivity. Qed.

Lemma size_Arr vs : size (Arr vs) = S (list_size vs).
Proof. reflexivity. Qed.

Lemma size_Obj ms : size (Obj ms) = S (members_size ms).
Proof. reflexivity. Qed.

Lemma size_pos v : 1 <= size v.
Proof. destruct v; cbn; lia. Qed.

(** The fuel that a successful run needs is bounded by the size of the
    value it returns. *)
Lemma parse_value_enough fuel :
  (forall s v r fuel', parse_value fuel s = Some (v, r) -> size v <= fuel' ->
                       parse_value fuel' s = Some (v, r)) /\
  (forall s vs r fuel', parse_elements fuel s = Some (vs, r) -> list_size vs <= fuel' ->
                        parse_elements fuel' s = Some (vs, r)) /\
  (forall s ms r fuel', parse_members fuel s = Some (ms, r) -> members_size ms <= fuel' ->
                        parse_members fuel' s = Some (ms, r)).
Proof.
  induction fuel as [|fuel (IHv & IHe & IHm)]; [done|].
  assert (forall s v r fuel' (x : option (Value * string)),
             parse_value fuel s = Some (v, r) -> size v <= fuel' ->
             parse_value fuel' s = x -> x = Some (v, r)) as Hv
    by (intros s v r fuel' x H Hs <-; eauto).
  assert (forall s vs r fuel' (x : option (list Value * string)),
             parse_elements fuel s = Some (vs, r) -> list_size vs <= fuel' ->
             parse_elements fuel' s = x -> x = Some (vs, r)) as He
    by (intros s vs r fuel' x H Hs <-; eauto).
  assert (forall s ms r fuel' (x : option (list (string * Value) * string)),
             parse_members fuel s = Some (ms, r) -> members_size ms <= fuel' ->
             parse_members fuel' s = x -> x = Some (ms, r)) as Hm
    by (intros s ms r fuel' x H Hs <-; eauto).
  clear IHv IHe IHm.
  split_and!.
  - intros s v r fuel' H Hsize.
    destruct fuel' as [|fuel']; [pose proof (size_pos v); lia|].
    cbn [parse_value] in *.
    repeat case_match; simplify_eq; try done; rewrite ?size_Arr, ?size_Obj in Hsize;
      repeat match goal with
      | Hi : parse_elements fuel ?s = Some _, Hj : parse_elements fuel' ?s = _ |- _ =>
          apply (He _ _ _ _ _ Hi) in Hj; [|lia]
      | Hi : parse_members fuel ?s = Some _, Hj : parse_members fuel' ?s = _ |- _ =>
          apply (Hm _ _ _ _ _ Hi) in Hj; [|lia]
      end; by simplify_eq.
  - intros s vs r fuel' H Hsize.
    cbn [parse_elements] in H.
    destruct (parse_value fuel s) as [[v r1]|] eqn:Hv1; [|done].
    assert (exists vs', vs = v :: vs') as [vs' ->] by (repeat case_match; simplify_eq; eauto).
    rewrite list_size_cons in Hsize.
    destruct fuel' as [|fuel']; [lia|].
    cbn [parse_elements].
    destruct (parse_value fuel' s) as [[v' r1']|] eqn:Hv2;
      (apply (Hv _ _ _ _ _ Hv1) in Hv2; [|lia]); simplify_eq.
    repeat case_match; simplify_eq; try done;
      repeat match goal with
      | Hi : parse_elements fuel ?s = Some _, Hj : parse_elements fuel' ?s = _ |- _ =>
          apply (He _ _ _ _ _ Hi) in Hj; [|lia]
      end; by simplify_eq.
  - intros s ms r fuel' H Hsize.
    cbn [parse_members] in H.
    destruct (starts_with quote (skip_ws s)) as [r0|] eqn:Hq; [|done].
    destruct (parse_chars r0) as [[key r1]|] eqn:Hkey; [|done].
    destruct (starts_with ":" (skip_ws r1)) as [r2|] eqn:Hcolon; [|done].
    destruct (parse_value fuel r2) as [[v r3]|] eqn:Hv1; [|done].
    assert (exists ms', ms = (key, v) :: ms') as [ms' ->]
      by (repeat case_match; simplify_eq; eauto).
    rewrite members_size_cons in Hsize. cbn [snd] in Hsize.
    destruct fuel' as [|fuel']; [lia|].
    cbn [parse_members]. rewrite Hq, Hkey, Hcolon.
    destruct (parse_value fuel' r2) as [[v' r3']|] eqn:Hv2;
      (apply (Hv _ _ _ _ _ Hv1) in Hv2; [|lia]); simplify_eq.
    repeat case_match; simplify_eq; try done;
      repeat match goal with
      | Hi : parse_members fuel ?s = Some _, Hj : parse_members fuel' ?s = _ |- _ =>
          apply (Hm _ _ _ _ _ Hi) in Hj; [|lia]
      end; by simplify_eq.
Qed.

(** *** What a run consumes *)

Lemma skip_ws_length s : String.length (skip_ws s) <= String.length s.
Proof. induction s as [|c s IH]; [done|]. cbn. destruct (is_ws c); cbn; lia. Qed.

Lemma starts_with_length c s r :
  starts_with c s = Some r -> String.length s = S (String.length r).
Proof. destruct s as [|d s]; [done|]. cbn. destruct (Ascii.eqb d c); by intros [= ->]. Qed.

Lemma strip_prefix_length p s r :
  strip_prefix p s = Some r -> String.length s = String.length p + String.length r.
Proof.
  revert s. induction p as [|a p IH]; intros s; cbn.
  - by intros [= ->].
  - destruct s as [|b s]; [done|]. destruct (Ascii.eqb a b); [|done].
    intros H%IH. cbn. lia.
Qed.

Lemma utf8_length n str : String.length str < String.length (utf8 n str).
Proof. unfold utf8. repeat case_match; cbn; lia. Qed.

Lemma parse_chars_length n :
  forall s str r, String.length s <= n -> parse_chars s = Some (str, r) ->
                  S (String.length r) <= String.length s.
Proof.
  induction n as [|n IH]; intros s str r Hn.
  - destruct s; [done | cbn in Hn; lia].
  - destruct s as [|c s]; [done|]. cbn [parse_chars String.length] in *.
    repeat case_match; simplify_eq; try done; intros; simplify_eq; try lia;
      cbn [String.length] in *;
      repeat match goal with
      | H : parse_chars ?t = Some _ |- _ => apply IH in H; [|cbn [String.length]; lia]
      end; cbn [String.length] in *; lia.
Qed.

Lemma span_digits_length s ds r :
  span_digits s = (ds, r) -> String.length ds + String.length r = String.length s.
Proof.
  revert ds r. induction s as [|c s IH]; intros ds r; cbn.
  - by intros [= <- <-].
  - destruct (is_digit c).
    + destruct (span_digits s) as [ds' r'] eqn:Hs. intros [= <- <-].
      specialize (IH _ _ eq_refl). cbn. lia.
    + by intros [= <- <-].
Qed.

Lemma scan_number_length s literal r :
  scan_number s = Some (literal, r) -> S (String.length r) <= String.length s.
Proof.
  unfold scan_number, scan_sign, scan_int, scan_frac, scan_exp.
  repeat case_match; simplify_eq; try done; intros; simplify_eq;
    repeat match goal with
    | H : starts_with _ _ = Some _ |- _ => apply starts_with_length in H
    | H : span_digits _ = _ |- _ => apply span_digits_length in H
    end; cbn [String.length] in *; lia.
Qed.

Ltac lengths IHv IHe IHm :=
  repeat match goal with
  | H : skip_ws ?s = String _ _ |- _ =>
      let Hl := fresh "Hl" in
      pose proof (skip_ws_length s) as Hl; rewrite H in Hl; clear H
  | H : skip_ws ?s = EmptyString |- _ => clear H
  | H : starts_with _ (skip_ws ?s) = Some _ |- _ =>
      let Hl := fresh "Hl" in
      pose proof (skip_ws_length s) as Hl; apply starts_with_length in H
  | H : starts_with _ _ = Some _ |- _ => apply starts_with_length in H
  | H : strip_prefix _ _ = Some _ |- _ => apply strip_prefix_length in H
  | H : parse_chars _ = Some _ |- _ => apply (parse_chars_length _ _ _ _ (le_n _)) in H
  | H : scan_number _ = Some _ |- _ => apply scan_number_length in H
  | H : parse_value _ _ = Some _ |- _ => apply IHv in H
  | H : parse_elements _ _ = Some _ |- _ => apply IHe in H
  | H : parse_members _ _ = Some _ |- _ => apply IHm in H
  end.

(** A value is no larger than the text it was read from. *)
Lemma parse_value_consumes fuel :
  (forall s v r, parse_value fuel s = Some (v, r) ->
                 size v + String.length r <= String.length s) /\
  (forall s vs r, parse_elements fuel s = Some (vs, r) ->
                  list_size vs + String.length r <= String.length s) /\
  (forall s ms r, parse_members fuel s = Some (ms, r) ->
                  members_size ms + String.length r <= String.length s).
Proof.
  induction fuel as [|fuel (IHv & IHe & IHm)]; [done|].
  split_and!.
  - intros s v r. cbn [parse_value].
    repeat case_match; try done; intros; simplify_eq;
      rewrite ?size_Arr, ?size_Obj; lengths IHv IHe IHm;
      cbn [String.length size list_size members_size List.map list_sum foldr] in *; lia.
  - intros s vs r. cbn [parse_elements].
    repeat case_match; try done; intros; simplify_eq;
      rewrite ?list_size_cons; lengths IHv IHe IHm;
      cbn [String.length size list_size List.map list_sum foldr] in *; lia.
  - intros s ms r. cbn [parse_members].
    repeat case_match; try done; intros; simplify_eq;
      rewrite ?members_size_cons; lengths IHv IHe IHm;
      cbn [String.length size members_size List.map list_sum foldr snd] in *; lia.
Qed.

(** The fuel that [parse] gives is enough: whenever the parser would read
    a whole text with some fuel, [parse] reads it. *)
Lemma parse_fuel_enough fuel s v r :
  parse_value fuel s = Some (v, r) -> skip_ws r = EmptyString -> parse s = Some v.
Proof.
  intros Hparse Hrest. unfold parse.
  pose proof (proj1 (parse_value_consumes fuel) _ _ _ Hparse) as Hsize.
  rewrite (proj1 (parse_value_enough fuel) _ _ _ (2 * String.length s + 2) Hparse) by lia.
  by rewrite Hrest.
Qed.

(** A text that [parse] rejects is rejected with every fuel: no run of the
    parser reads it as one value followed by white space only. *)
Lemma parse_None s :
  parse s = None ->
  forall fuel v r, parse_value fuel s = Some (v, r) -> skip_ws r <> EmptyString.
Proof.
  intros Hnone fuel v r Hparse Hrest.
  by rewrite (parse_fuel_enough fuel s v r Hparse Hrest) in Hnone.
Qed.

End JSONFacts.

(** ** Queries on the result card *)





(** ** Frames of the statements *)

Section Preserves.
Context (R : World -> World -> Prop) `{!Reflexive R} `{!Transitive R}.

Lemma preserves_ret {A} (a : A) : preserves R (mret a).
Proof. intros w. reflexivity. Qed.

Lemma preserves_throw {A} e : preserves R (@throw A e).
Proof. intros w. reflexivity. Qed.

Lemma preserves_bind {A B} (p : Js A) (k : A -> Js B) :
  preserves R p -> (forall a, preserves R (k a)) -> preserves R (p ≫= k).
Proof.
  intros Hp Hk w. specialize (Hp w). unfold exec in *.
  unfold mbind, Js_bind. destruct (p w) as [[a|e] w1]; cbn [snd] in *; [|done].
  etrans; [exact Hp|]. apply Hk.
Qed.

Lemma preserves_try_catch {A} (p : Js A) (h : Exn -> Js A) :
  preserves R p -> (forall e, preserves R (h e)) -> preserves R (try_catch p h).
Proof.
  intros Hp Hh w. specialize (Hp w). unfold exec, try_catch in *.
  destruct (p w) as [[a|e] w1]; cbn [snd] in *; [done|].
  etrans; [exact Hp|]. apply Hh.
Qed.

Lemma preserves_try_finally {A} (p : Js A) (f : Js unit) :
  preserves R p -> preserves R f -> preserves R (try_finally p f).
Proof.
  intros Hp Hf w. specialize (Hp w). unfold exec, try_finally in *.
  destruct (p w) as [c w1]; cbn [snd] in *.
  specialize (Hf w1). unfold exec in Hf. destruct (f w1) as [[[]|e] w2]; cbn [snd] in *;
    by etrans.
Qed.

Lemma preserves_getElementById id : preserves R (getElementById id).
Proof. intros w. reflexivity. Qed.

Lemma preserves_deref {A} (o : option A) : preserves R (deref o).
Proof. destruct o; [apply preserves_ret | apply preserves_throw]. Qed.

Lemma preserves_getItem key : preserves R (localStorage_getItem key).
Proof. intros w. reflexivity. Qed.

Lemma preserves_JSON_parse text : preserves R (JSON_parse text).
Proof. unfold JSON_parse. destruct (JSON.parse text); [apply preserves_ret | apply preserves_throw]. Qed.

End Preserves.

Lemma preserves_and (R1 R2 : World -> World -> Prop) {A} (p : Js A) :
  preserves R1 p -> preserves R2 p -> preserves (fun w w' => R1 w w' /\ R2 w w') p.
Proof. intros H1 H2 w. split; [apply H1 | apply H2]. Qed.

#[export] Instance quiet_refl noisy : Reflexive (quiet noisy).
Proof. intros w. exists []. by rewrite app_nil_r. Qed.

#[export] Instance quiet_trans noisy : Transitive (quiet noisy).
Proof.
  intros w1 w2 w3 (n1 & E1 & F1) (n2 & E2 & F2). exists (n1 ++ n2). split.
  - by rewrite E2, E1, <- app_assoc.
  - by rewrite List.filter_app, F1, F2.
Qed.

#[export] Instance keeps_refl id : Reflexive (keeps id).
Proof. by intros w. Qed.

#[export] Instance keeps_trans id : Transitive (keeps id).
Proof. unfold keeps. intros w1 w2 w3 E1 E2. by rewrite E2. Qed.



Lemma quiet_effect noisy e : noisy e = false -> preserves (quiet noisy) (effect e).
Proof. intros H w. exists [e]. split; [done|]. cbn. by rewrite H. Qed.

Lemma quiet_update noisy id f : preserves (quiet noisy) (update_element id f).
Proof. intros w. exists []. by rewrite app_nil_r. Qed.

Lemma keeps_effect id e : preserves (keeps id) (effect e).
Proof. intros w. reflexivity. Qed.

Lemma keeps_update id id' f : id' ≠ id -> preserves (keeps id) (update_element id' f).
Proof. intros H w. unfold keeps. cbn. by rewrite lookup_alter_ne. Qed.



(** One step of a frame proof, chosen by the shape of the statement. *)
Ltac preserves_step :=
  lazymatch goal with
  | |- preserves _ (mret _) => apply preserves_ret; tc_solve
  | |- preserves _ (throw _) => apply preserves_throw; tc_solve
  | |- preserves _ (getElementById _) => apply preserves_getElementById; tc_solve
  | |- preserves _ (deref _) => apply preserves_deref; tc_solve
  | |- preserves _ (localStorage_getItem _) => apply preserves_getItem; tc_solve
  | |- preserves _ (JSON_parse _) => apply preserves_JSON_parse; tc_solve
  | |- preserves _ (_ ≫= _) => apply preserves_bind; [tc_solve | | intros ?]
  | |- preserves _ (try_catch _ _) => apply preserves_try_catch; [tc_solve | | intros ?]
  | |- preserves _ (try_finally _ _) => apply preserves_try_finally; [tc_solve | | ]
  | |- preserves (quiet _) (effect _) => apply quiet_effect; first [reflexivity | assumption]
  | |- preserves (quiet _) (update_element _ _) => apply quiet_update
  | |- preserves (keeps _) (effect _) => apply keeps_effect
  | |- preserves (keeps _) (update_element _ _) => apply keeps_update; done
  | |- preserves _ (match ?x with _ => _ end) => destruct x
  | |- preserves _ (match ?x with _ => _ end _) => destruct x
  end.

Ltac preserves_auto := repeat preserves_step.

Lemma showError_quiet noisy message :
  noisy (ClassListRemove "results-section" "hidden") = false ->
  preserves (quiet noisy) (ChoksApp.showError message).
Proof.
  intros H. unfold ChoksApp.showError, assign_innerHTML, classList_remove.
  preserves_auto.
Qed.

Lemma displayResults_quiet noisy result :
  noisy (ClassListRemove "results-section" "hidden") = false ->
  noisy (ScrollIntoView "results-section") = false ->
  preserves (quiet noisy) (ChoksApp.displayResults result).
Proof.
  intros H1 H2. unfold ChoksApp.displayResults, assign_innerHTML, classList_remove.
  preserves_auto.
Qed.

Lemma showError_keeps id message :
  id ≠ "results-content" -> id ≠ "results-section" ->
  preserves (keeps id) (ChoksApp.showError message).
Proof.
  intros H1 H2. unfold ChoksApp.showError, assign_innerHTML, classList_remove.
  preserves_auto.
Qed.

Lemma showLoading_keeps id : id ≠ "loading-modal" -> preserves (keeps id) ChoksApp.showLoading.
Proof. intros H. unfold ChoksApp.showLoading, classList_remove. preserves_auto. Qed.

Lemma hideLoading_keeps id : id ≠ "loading-modal" -> preserves (keeps id) ChoksApp.hideLoading.
Proof. intros H. unfold ChoksApp.hideLoading, classList_add. preserves_auto. Qed.

Lemma displayResults_keeps id result :
  id ≠ "results-content" -> id ≠ "results-section" ->
  preserves (keeps id) (ChoksApp.displayResults result).
Proof.
  intros H1 H2. unfold ChoksApp.displayResults, assign_innerHTML, classList_remove.
  preserves_auto.
Qed.

Lemma falsy_Some s : s ≠ EmptyString -> falsy (Some s) = false.
Proof. by destruct s. Qed.

Lemma handleLocationAnalysis_valid event net w loc biz :
  form_location event = Some loc -> loc ≠ EmptyString ->
  form_business_type event = Some biz -> biz ≠ EmptyString ->
  ChoksApp.handleLocationAnalysis event net w =
  try_finally (settle net) ChoksApp.hideLoading
    (exec (effect (Request "/api/analyze" "POST"
                     (ChoksApp.analyzeRequest loc biz (checkedDemographics w))))
       (exec ChoksApp.showLoading (exec (effect PreventDefault) w))).
Proof.
  intros Hl Hln Hb Hbn. unfold ChoksApp.handleLocationAnalysis.
  rewrite Hl, Hb, !falsy_Some by done. cbn [orb default].
  unfold settle, exec, ChoksApp.showLoading, fetch, getElementById, try_finally,
    try_catch, effect, mbind, Js_bind; cbn [fst snd document set_effects].
  destruct (document w !! "loading-modal"); reflexivity.
Qed.

Lemma exec_try_finally {A} (p : Js A) (f : Js unit) w :
  exec (try_finally p f) w = exec f (exec p w).
Proof.
  unfold exec, try_finally. destruct (p w) as [c w1]. cbn [snd].
  by destruct (f w1) as [[[]|e] w2].
Qed.


Lemma settle_quiet net : preserves (quiet on_modal_or_request) (settle net).
Proof.
  unfold settle, Response_json. preserves_auto;
    first [ by apply showError_quiet | by apply displayResults_quiet ].
Qed.

Lemma settle_keeps id net :
  id ≠ "results-content" -> id ≠ "results-section" -> preserves (keeps id) (settle net).
Proof.
  intros H1 H2. unfold settle, Response_json. preserves_auto;
    first [ by apply showError_keeps | by apply displayResults_keeps ].
Qed.

Lemma filter_orb_nil {A} (f g : A -> bool) l :
  List.filter (fun x => f x || g x) l = [] -> List.filter f l = [] /\ List.filter g l = [].
Proof.
  induction l as [|x l IH]; [done|]. cbn.
  destruct (f x), (g x); cbn; try done.
Qed.

Lemma handleLocationAnalysis_exec event net w loc biz :
  form_location event = Some loc -> loc ≠ EmptyString ->
  form_business_type event = Some biz -> biz ≠ EmptyString ->
  exec (ChoksApp.handleLocationAnalysis event net) w =
  exec ChoksApp.hideLoading
    (exec (settle net)
       (exec (effect (Request "/api/analyze" "POST"
                        (ChoksApp.analyzeRequest loc biz (checkedDemographics w))))
          (exec ChoksApp.showLoading (exec (effect PreventDefault) w)))).
Proof.
  intros Hl Hln Hb Hbn. unfold exec at 1.
  rewrite (handleLocationAnalysis_valid _ _ _ _ _ Hl Hln Hb Hbn).
  apply exec_try_finally.
Qed.

Lemma showLoading_exec w :
  exec ChoksApp.showLoading w =
  match document w !! "loading-modal" with
  | Some _ =>
      set_effects (effects w ++ [ClassListRemove "loading-modal" "hidden"])
        (set_document
           (alter (fun e => set_classList (DOMTokenList_remove "hidden" (classList e)) e)
              "loading-modal" (document w)) w)
  | None => w
  end.
Proof.
  unfold exec, ChoksApp.showLoading, getElementById, mbind, Js_bind.
  by destruct (document w !! "loading-modal").
Qed.

Lemma hideLoading_exec w :
  exec ChoksApp.hideLoading w =
  match document w !! "loading-modal" with
  | Some _ =>
      set_effects (effects w ++ [ClassListAdd "loading-modal" "hidden"])
        (set_document
           (alter (fun e => set_classList (DOMTokenList_add "hidden" (classList e)) e)
              "loading-modal" (document w)) w)
  | None => w
  end.
Proof.
  unfold exec, ChoksApp.hideLoading, getElementById, mbind, Js_bind.
  by destruct (document w !! "loading-modal").
Qed.

Lemma DOMTokenList_add_elem class l : existsb (String.eqb class) (DOMTokenList_add class l) = true.
Proof.
  unfold DOMTokenList_add. destruct (existsb (String.eqb class) l) eqn:E; [done|].
  rewrite existsb_app. cbn. by rewrite String.eqb_refl, orb_true_r.
Qed.

Lemma showError_run message w container section :
  document w !! "results-content" = Some container ->
  document w !! "results-section" = Some section ->
  ChoksApp.showError message w =
  (Normal (),
   set_effects (effects w ++ [ClassListRemove "results-section" "hidden"])
     (set_document
        (alter (fun e => set_classList (DOMTokenList_remove "hidden" (classList e)) e)
           "results-section"
           (alter (set_innerHTML (ChoksApp.errorHtml message)) "results-content"
              (document w))) w)).
Proof.
  intros Hc Hs.
  unfold ChoksApp.showError, assign_innerHTML, classList_remove, update_element,
    getElementById, effect, deref, mbind, Js_bind, mret, Js_ret.
  rewrite Hc. cbn [document set_document]. rewrite lookup_alter_ne, Hs by done.
  reflexivity.
Qed.

Lemma DOMTokenList_remove_elem class l :
  existsb (String.eqb class) (DOMTokenList_remove class l) = false.
Proof.
  unfold DOMTokenList_remove. induction l as [|x l IH]; [done|]. cbn.
  destruct (String.eqb x class) eqn:E; cbn; [done|].
  rewrite String.eqb_sym, E. done.
Qed.


Lemma hideLoading_normal w : completion ChoksApp.hideLoading w = Normal ().
Proof.
  unfold completion, ChoksApp.hideLoading, getElementById, mbind, Js_bind.
  by destruct (document w !! "loading-modal").
Qed.

Lemma completion_try_finally {A} (p : Js A) (f : Js unit) w :
  completion f (exec p w) = Normal () ->
  completion (try_finally p f) w = completion p w.
Proof.
  unfold completion, exec, try_finally. destruct (p w) as [c w1]. cbn [fst snd].
  destruct (f w1) as [[[]|e] w2]; cbn [fst]; done.
Qed.

Lemma handleLocationAnalysis_completion event net w loc biz :
  form_location event = Some loc -> loc ≠ EmptyString ->
  form_business_type event = Some biz -> biz ≠ EmptyString ->
  completion (ChoksApp.handleLocationAnalysis event net) w =
  completion (settle net)
    (exec (effect (Request "/api/analyze" "POST"
                     (ChoksApp.analyzeRequest loc biz (checkedDemographics w))))
       (exec ChoksApp.showLoading (exec (effect PreventDefault) w))).
Proof.
  intros Hl Hln Hb Hbn. unfold completion at 1.
  rewrite (handleLocationAnalysis_valid _ _ _ _ _ Hl Hln Hb Hbn).
  apply completion_try_finally, hideLoading_normal.
Qed.

(** What a valid submission leaves of the results area: what [settle]
    left of it. *)
Lemma submission_results event net w loc biz :
  form_location event = Some loc -> loc ≠ EmptyString ->
  form_business_type event = Some biz -> biz ≠ EmptyString ->
  exists w3,
    document w3 !! "results-content" = document w !! "results-content" /\
    document w3 !! "results-section" = document w !! "results-section" /\
    completion (ChoksApp.handleLocationAnalysis event net) w = completion (settle net) w3 /\
    content (exec (ChoksApp.handleLocationAnalysis event net) w) = content (exec (settle net) w3) /\
    is_hidden "results-section" (exec (ChoksApp.handleLocationAnalysis event net) w) =
      is_hidden "results-section" (exec (settle net) w3).
Proof.
  intros Hl Hln Hb Hbn.
  eexists. split_and!; cycle 2.
  - by apply handleLocationAnalysis_completion.
  - rewrite (handleLocationAnalysis_exec _ _ _ _ _ Hl Hln Hb Hbn).
    unfold content. by rewrite (hideLoading_keeps "results-content").
  - rewrite (handleLocationAnalysis_exec _ _ _ _ _ Hl Hln Hb Hbn).
    unfold is_hidden. by rewrite (hideLoading_keeps "results-section").
  - cbn [exec effect snd document set_effects].
    by rewrite (showLoading_keeps "results-content").
  - cbn [exec effect snd document set_effects].
    by rewrite (showLoading_keeps "results-section").
Qed.

Lemma settle_rejects reason w :
  settle (Rejects reason) w = ChoksApp.showError network_error w.
Proof. reflexivity. Qed.

Lemma settle_unparseable status e w :
  settle (Resolves {| ok := status; body := Unparseable e |}) w =
  ChoksApp.showError network_error w.
Proof. reflexivity. Qed.

Lemma settle_failure status result w container section :
  document w !! "results-content" = Some container ->
  document w !! "results-section" = Some section ->
  status && success result = false ->
  settle (Resolves {| ok := status; body := Parsed result |}) w =
  ChoksApp.showError (or_else (error result) "Analysis failed") w.
Proof.
  intros Hc Hs Hko.
  unfold settle, try_catch, Response_json, mbind, Js_bind, mret, Js_ret.
  cbn [body ok]. rewrite Hko.
  by rewrite (showError_run _ _ _ _ Hc Hs).
Qed.

Lemma displayResults_malformed result w container section :
  document w !! "results-content" = Some container ->
  document w !! "results-section" = Some section ->
  recommendation result = None \/
  (exists r, recommendation result = Some r /\ insights r = None) ->
  ChoksApp.displayResults result w = (Throw TypeError, w).
Proof.
  intros Hc Hs Hbad.
  unfold ChoksApp.displayResults, getElementById, deref, throw, mbind, Js_bind, mret, Js_ret.
  rewrite Hs, Hc. destruct Hbad as [-> | (r & -> & ->)]; reflexivity.
Qed.

Lemma settle_malformed result w container section :
  document w !! "results-content" = Some container ->
  document w !! "results-section" = Some section ->
  success result = true ->
  recommendation result = None \/
  (exists r, recommendation result = Some r /\ insights r = None) ->
  settle (Resolves {| ok := true; body := Parsed result |}) w =
  ChoksApp.showError network_error w.
Proof.
  intros Hc Hs Hok Hbad.
  unfold settle, try_catch, Response_json, mbind, Js_bind, mret, Js_ret.
  cbn [body ok]. rewrite Hok. cbn [andb].
  by rewrite (displayResults_malformed _ _ _ _ Hc Hs Hbad).
Qed.

(** ** Rendering *)

Lemma displayResults_run result w container section rec ins :
  document w !! "results-content" = Some container ->
  document w !! "results-section" = Some section ->
  recommendation result = Some rec ->
  insights rec = Some ins ->
  ChoksApp.displayResults result w =
  (Normal (),
   set_effects
     (effects w ++ [ClassListRemove "results-section" "hidden";
                    ScrollIntoView "results-section"])
     (set_document
        (alter (fun e => set_classList (DOMTokenList_remove "hidden" (classList e)) e)
           "results-section"
           (alter (set_innerHTML (ChoksApp.resultHtml result rec ins)) "results-content"
              (document w))) w)).
Proof.
  intros Hc Hs Hr Hi.
  unfold ChoksApp.displayResults, assign_innerHTML, classList_remove, update_element,
    getElementById, effect, deref, mbind, Js_bind, mret, Js_ret.
  rewrite Hs, Hc, Hr. cbv beta iota. rewrite Hi.
  cbn [effects set_effects document set_document]. by rewrite <- app_assoc.
Qed.


Lemma settle_success result w container section rec ins :
  document w !! "results-content" = Some container ->
  document w !! "results-section" = Some section ->
  success result = true ->
  recommendation result = Some rec ->
  insights rec = Some ins ->
  settle (Resolves {| ok := true; body := Parsed result |}) w =
  ChoksApp.displayResults result w.
Proof.
  intros Hc Hs Hok Hr Hi.
  unfold settle, try_catch, Response_json, mbind, Js_bind, mret, Js_ret.
  cbn [body ok]. rewrite Hok. cbn [andb].
  by rewrite (displayResults_run _ _ _ _ _ _ Hc Hs Hr Hi).
Qed.



(** ** Saving *)

Lemma savedRecord_well_formed id now loc :
  JSON.well_formed (ChoksApp.savedRecord id now loc) = true.
Proof. reflexivity. Qed.

Lemma stringify_Arr_nonempty items :
  falsy (Some (JSON.stringify (JSON.Arr items))) = false.
Proof. reflexivity. Qed.

Lemma showSuccess_normal message w : completion (ChoksApp.showSuccess message) w = Normal ().
Proof.
  unfold completion, ChoksApp.showSuccess, getElementById, mbind, Js_bind.
  by destruct (document w !! "results-content").
Qed.

Lemma showSuccess_frame message w :
  localStorage (exec (ChoksApp.showSuccess message) w) = localStorage w /\
  keeps "location" w (exec (ChoksApp.showSuccess message) w).
Proof.
  unfold keeps, exec, ChoksApp.showSuccess, assign_innerHTML, update_element,
    getElementById, mbind, Js_bind.
  destruct (document w !! "results-content"); cbn; [|done].
  by rewrite lookup_alter_ne.
Qed.

Lemma saveAnalysis_run now analysisId w items location :
  savedAnalyses w = Some (JSON.Arr items) ->
  document w !! "location" = Some location ->
  ChoksApp.saveAnalysis now analysisId w =
  ChoksApp.showSuccess "Analysis saved successfully!"
    (set_localStorage
       (<["savedAnalyses" :=
            JSON.stringify
              (JSON.Arr (items ++ [ChoksApp.savedRecord analysisId now (value location)]))]>
          (localStorage w)) w).
Proof.
  unfold savedAnalyses. intros Hsaved Hloc.
  unfold ChoksApp.saveAnalysis, localStorage_getItem, JSON_parse, getElementById, deref,
    localStorage_setItem, mbind, Js_bind, mret, Js_ret.
  cbv beta. rewrite Hsaved. cbv beta iota. rewrite Hloc. reflexivity.
Qed.

(** One save: the stored sequence is read, a record is appended and the
    whole sequence is written back. *)
Lemma saveAnalysis_appends now analysisId w items location :
  savedAnalyses w = Some (JSON.Arr items) ->
  document w !! "location" = Some location ->
  let w' := exec (ChoksApp.saveAnalysis now analysisId) w in
  let pushed := items ++ [ChoksApp.savedRecord analysisId now (value location)] in
  completion (ChoksApp.saveAnalysis now analysisId) w = Normal () /\
  localStorage w' = <["savedAnalyses" := JSON.stringify (JSON.Arr pushed)]> (localStorage w) /\
  savedAnalyses w' = Some (JSON.Arr pushed) /\
  document w' !! "location" = Some location.
Proof.
  intros Hsaved Hloc w' pushed. subst w'.
  assert (JSON.well_formed (JSON.Arr pushed) = true) as Hwf.
  { apply JSONFacts.parse_well_formed in Hsaved. cbn [JSON.well_formed] in *.
    subst pushed. rewrite forallb_app, Hsaved. reflexivity. }
  unfold completion, exec. rewrite (saveAnalysis_run _ _ _ _ _ Hsaved Hloc).
  fold pushed. set (w1 := set_localStorage _ w).
  pose proof (showSuccess_normal "Analysis saved successfully!" w1) as Hn.
  pose proof (showSuccess_frame "Analysis saved successfully!" w1) as [Hs Hk].
  unfold completion, exec, keeps in *.
  destruct (ChoksApp.showSuccess _ w1) as [c w2]. cbn [fst snd] in *. subst c.
  split_and!; [done | by rewrite Hs | | by rewrite Hk].
  unfold savedAnalyses. rewrite Hs. subst w1. cbn [localStorage set_localStorage].
  rewrite lookup_insert_eq. unfold or_else. rewrite stringify_Arr_nonempty.
  cbn [default]. by apply JSONFacts.parse_stringify.
Qed.





(** ** Statements that do not read the log *)

Lemma same_page_refl w : same_page w w.
Proof. by repeat split. Qed.

Lemma same_page_set_effects l w : same_page (set_effects l w) w.
Proof. by repeat split. Qed.

Lemma oblivious_ret {A} (a : A) : oblivious (mret a).
Proof. intros w1 w2 H. by split. Qed.

Lemma oblivious_throw {A} e : oblivious (@throw A e).
Proof. intros w1 w2 H. by split. Qed.

Lemma oblivious_bind {A B} (p : Js A) (k : A -> Js B) :
  oblivious p -> (forall a, oblivious (k a)) -> oblivious (p ≫= k).
Proof.
  intros Hp Hk w1 w2 H. destruct (Hp w1 w2 H) as [Hc Hw].
  unfold completion, exec, mbind, Js_bind in *.
  destruct (p w1) as [c1 v1], (p w2) as [c2 v2]. cbn [fst snd] in *. subst c2.
  destruct c1 as [a|e]; [by apply Hk | by split].
Qed.

Lemma oblivious_try_catch {A} (p : Js A) (h : Exn -> Js A) :
  oblivious p -> (forall e, oblivious (h e)) -> oblivious (try_catch p h).
Proof.
  intros Hp Hh w1 w2 H. destruct (Hp w1 w2 H) as [Hc Hw].
  unfold completion, exec, try_catch in *.
  destruct (p w1) as [c1 v1], (p w2) as [c2 v2]. cbn [fst snd] in *. subst c2.
  destruct c1 as [a|e]; [by split | by apply Hh].
Qed.

Lemma oblivious_try_finally {A} (p : Js A) (f : Js unit) :
  oblivious p -> oblivious f -> oblivious (try_finally p f).
Proof.
  intros Hp Hf w1 w2 H. destruct (Hp w1 w2 H) as [Hc Hw].
  unfold completion, exec, try_finally in *.
  destruct (p w1) as [c1 v1], (p w2) as [c2 v2]. cbn [fst snd] in *. subst c2.
  destruct (Hf v1 v2 Hw) as [Hc' Hw']. unfold completion, exec in Hc', Hw'.
  destruct (f v1) as [d1 u1], (f v2) as [d2 u2]. cbn [fst snd] in *. subst d2.
  by destruct d1 as [[]|e].
Qed.

Lemma oblivious_deref {A} (o : option A) : oblivious (deref o).
Proof. destruct o; [apply oblivious_ret | apply oblivious_throw]. Qed.

Lemma oblivious_JSON_parse text : oblivious (JSON_parse text).
Proof.
  unfold JSON_parse. destruct (JSON.parse text); [apply oblivious_ret | apply oblivious_throw].
Qed.

Lemma oblivious_effect e : oblivious (effect e).
Proof. intros w1 w2 H. split; [done|]. exact H. Qed.

Lemma oblivious_getElementById id : oblivious (getElementById id).
Proof.
  intros w1 w2 H. split; [|exact H].
  unfold completion, getElementById. cbn. by destruct H as (-> & _).
Qed.

Lemma oblivious_update id f : oblivious (update_element id f).
Proof.
  intros w1 w2 (Hd & Hc & Hdd & Hl). split; [done|].
  unfold exec, update_element, same_page. cbn. by rewrite Hd.
Qed.

Lemma oblivious_getItem key : oblivious (localStorage_getItem key).
Proof.
  intros w1 w2 H. split; [|exact H].
  unfold completion, localStorage_getItem. cbn. by destruct H as (_ & _ & _ & ->).
Qed.

Lemma oblivious_setItem key text : oblivious (localStorage_setItem key text).
Proof.
  intros w1 w2 (Hd & Hc & Hdd & Hl). split; [done|].
  unfold exec, localStorage_setItem, same_page. cbn. by rewrite Hl.
Qed.

Lemma oblivious_form_reset id : oblivious (form_reset id).
Proof.
  intros w1 w2 (Hd & Hc & Hdd & Hl). split; [done|].
  unfold exec, form_reset, same_page. cbn. by rewrite Hd, Hdd.
Qed.

Lemma oblivious_checked :
  oblivious (fun w => (Normal (checkedDemographics w), w)).
Proof.
  intros w1 w2 H. split; [|exact H].
  unfold completion. cbn. by destruct H as (_ & -> & _).
Qed.

Ltac oblivious_step :=
  lazymatch goal with
  | |- oblivious (mret _) => apply oblivious_ret
  | |- oblivious (throw _) => apply oblivious_throw
  | |- oblivious (deref _) => apply oblivious_deref
  | |- oblivious (JSON_parse _) => apply oblivious_JSON_parse
  | |- oblivious (effect _) => apply oblivious_effect
  | |- oblivious (getElementById _) => apply oblivious_getElementById
  | |- oblivious (update_element _ _) => apply oblivious_update
  | |- oblivious (localStorage_getItem _) => apply oblivious_getItem
  | |- oblivious (localStorage_setItem _ _) => apply oblivious_setItem
  | |- oblivious (form_reset _) => apply oblivious_form_reset
  | |- oblivious (fun w => (Normal (checkedDemographics w), w)) => apply oblivious_checked
  | |- oblivious (_ ≫= _) => apply oblivious_bind; [|intros ?]
  | |- oblivious (try_catch _ _) => apply oblivious_try_catch; [|intros ?]
  | |- oblivious (try_finally _ _) => apply oblivious_try_finally
  | |- oblivious (match ?x with _ => _ end) => destruct x
  | |- oblivious (match ?x with _ => _ end _) => destruct x
  end.

Ltac oblivious_auto := repeat oblivious_step.

Lemma oblivious_handleLocationAnalysis event net :
  oblivious (ChoksApp.handleLocationAnalysis event net).
Proof.
  unfold ChoksApp.handleLocationAnalysis, ChoksApp.showError, ChoksApp.showLoading,
    ChoksApp.hideLoading, ChoksApp.displayResults, fetch, Response_json,
    classList_remove, classList_add, assign_innerHTML.
  oblivious_auto.
Qed.

Lemma oblivious_saveAnalysis now analysisId : oblivious (ChoksApp.saveAnalysis now analysisId).
Proof.
  unfold ChoksApp.saveAnalysis, ChoksApp.showSuccess, assign_innerHTML. oblivious_auto.
Qed.

Lemma oblivious_newAnalysis : oblivious ChoksApp.newAnalysis.
Proof. unfold ChoksApp.newAnalysis, classList_add. oblivious_auto. Qed.

Lemma sendEvent_run eventType data net w :
  Analytics.sendEvent eventType data net w =
  (Normal (),
   set_effects
     (effects w ++
      Request "/api/analytics" "POST"
        (JSON.stringify
           (JSON.Obj [("event_type", JSON.Str eventType); ("data", data)]))
      :: match net with
         | Rejects reason => [ConsoleDebug "Analytics error:" reason]
         | Resolves _ => []
         end) w).
Proof.
  unfold Analytics.sendEvent, try_catch, fetch, effect, throw, mbind, Js_bind, mret, Js_ret.
  destruct net as [reason|response]; cbn [effects set_effects fst snd].
  - unfold set_effects. cbn. by rewrite <- app_assoc.
  - done.
Qed.

Lemma oblivious_sendEvent eventType data net : oblivious (Analytics.sendEvent eventType data net).
Proof. unfold Analytics.sendEvent, fetch. oblivious_auto. Qed.

Lemma oblivious_perform a : oblivious (perform a).
Proof.
  destruct a; unfold perform.
  - apply oblivious_handleLocationAnalysis.
  - apply oblivious_newAnalysis.
  - apply oblivious_saveAnalysis.
  - apply oblivious_update.
  - apply oblivious_sendEvent.
Qed.

(** ** One panel at a time *)

#[export] Instance stays_single_refl : Reflexive stays_single.
Proof. by intros w H. Qed.

#[export] Instance stays_single_trans : Transitive stays_single.
Proof. intros w1 w2 w3 H1 H2 H. auto. Qed.


Lemma panels_successHtml message forest :
  panels (ChoksApp.successHtml message ++ forest) = panels forest.
Proof. reflexivity. Qed.

Lemma keeps_content p w :
  keeps "results-content" w (exec p w) -> content (@exec unit p w) = content w.
Proof. unfold keeps, content. by intros ->. Qed.












(** ** Submissions *)

Lemma falsy_false v : falsy v = false -> exists s, v = Some s /\ s ≠ EmptyString.
Proof. destruct v as [[|c s]|]; [done| |done]. intros _. by eexists. Qed.

Lemma handleLocationAnalysis_invalid event net w :
  falsy (form_location event) || falsy (form_business_type event) = true ->
  ChoksApp.handleLocationAnalysis event net w =
  ChoksApp.showError "Please fill in all required fields" (exec (effect PreventDefault) w).
Proof.
  intros H. unfold ChoksApp.handleLocationAnalysis, exec, effect, mbind, Js_bind.
  cbn [fst snd checkedDemographics set_effects]. by rewrite H.
Qed.

(** The life of the loading indicator during a submission that passes
    validation. *)
Lemma loading_indicator_lifecycle event net w loc biz :
  form_location event = Some loc -> loc ≠ EmptyString ->
  form_business_type event = Some biz -> biz ≠ EmptyString ->
  let w' := exec (ChoksApp.handleLocationAnalysis event net) w in
  exists rendering,
    effects w' =
      effects w ++ [PreventDefault] ++ indicator ClassListRemove w ++
      [Request "/api/analyze" "POST"
         (ChoksApp.analyzeRequest loc biz (checkedDemographics w))] ++
      rendering ++ indicator ClassListAdd w
    /\ List.filter (on_element "loading-modal") rendering = []
    /\ List.filter is_request rendering = []
    /\ w' = exec ChoksApp.hideLoading (exec (settle net) (pending loc biz w))
    /\ (is_Some (document w !! "loading-modal") ->
        is_hidden "loading-modal" (pending loc biz w) = false /\
        is_hidden "loading-modal" w' = true).
Proof.
  intros Hl Hln Hb Hbn w'. subst w'.
  rewrite (handleLocationAnalysis_exec _ _ _ _ _ Hl Hln Hb Hbn).
  fold (pending loc biz w). set (w3 := pending loc biz w).
  destruct (settle_quiet net w3) as (rendering & Heff & Hquiet).
  pose proof (settle_keeps "loading-modal" net ltac:(done) ltac:(done) w3) as Hkeep.
  apply filter_orb_nil in Hquiet as [Hq1 Hq2].
  unfold keeps in Hkeep. set (w4 := exec (settle net) w3) in *.
  assert (Hw3 : document w3 !! "loading-modal" =
                (fun e => set_classList (DOMTokenList_remove "hidden" (classList e)) e)
                  <$> document w !! "loading-modal"
                ∧ effects w3 = effects w ++ [PreventDefault] ++ indicator ClassListRemove w ++
                    [Request "/api/analyze" "POST"
                       (ChoksApp.analyzeRequest loc biz (checkedDemographics w))]).
  { subst w3. unfold pending. rewrite showLoading_exec. unfold indicator, exec, effect.
    cbn [fst snd document set_effects set_document effects].
    destruct (document w !! "loading-modal") as [modal|] eqn:Hm;
      cbn [fst snd document set_effects set_document effects].
    - rewrite lookup_alter_eq, Hm. by rewrite <- !app_assoc.
    - rewrite Hm. by rewrite <- !app_assoc. }
  destruct Hw3 as [Hmodal Hw3].
  exists rendering. split_and!; try done.
  - rewrite hideLoading_exec, Hkeep, Hmodal. unfold indicator.
    destruct (document w !! "loading-modal") as [modal|] eqn:Hm;
      cbn [fmap option_fmap option_map effects set_effects].
    + rewrite Heff, Hw3. unfold indicator. rewrite Hm. by rewrite <- !app_assoc.
    + rewrite Heff, Hw3. unfold indicator. rewrite Hm. by rewrite <- !app_assoc, app_nil_r.
  - intros [modal Hm]. split.
    { unfold is_hidden. rewrite Hmodal, Hm.
      cbn [fmap option_fmap option_map classList set_classList].
      apply DOMTokenList_remove_elem. }
    unfold is_hidden.
    rewrite hideLoading_exec, Hkeep, Hmodal, Hm.
    cbn [fmap option_fmap option_map document set_effects set_document].
    rewrite lookup_alter_eq, Hkeep, Hmodal, Hm.
    cbn [fmap option_fmap option_map classList set_classList].
    apply DOMTokenList_add_elem.
Qed.



Ltac world_simpl :=
  cbn [document checkedDemographics defaultDemographics localStorage effects
       set_document set_checkedDemographics set_localStorage set_effects fst snd].



(** * The claims *)

(** C1. For every submission that passes the non-emptiness validation, the
    loading indicator is shown before the analyze request is issued and is
    hidden exactly once, as the last effect of the handler, whatever the
    way the request settles and whatever is thrown while the response is
    handled; no path leaves it visible.  The effects of the handler are:
    [preventDefault], the indicator shown, the request, the effects of
    rendering (none of them on the indicator, none a request), the
    indicator hidden.  While the request is pending the indicator is
    visible; when the handler is done it is hidden. *)
Theorem C1_loading_indicator (event : SubmitEvent) (net : Settled) (w : World)
    (loc biz : string) :
  form_location event = Some loc -> loc ≠ EmptyString ->
  form_business_type event = Some biz -> biz ≠ EmptyString ->
  let w' := exec (ChoksApp.handleLocationAnalysis event net) w in
  exists rendering,
    effects w' =
      effects w ++ [PreventDefault] ++ indicator ClassListRemove w ++
      [Request "/api/analyze" "POST"
         (ChoksApp.analyzeRequest loc biz (checkedDemographics w))] ++
      rendering ++ indicator ClassListAdd w
    /\ List.filter (on_element "loading-modal") rendering = []
    /\ List.filter is_request rendering = []
    /\ w' = exec ChoksApp.hideLoading (exec (settle net) (pending loc biz w))
    /\ (is_Some (document w !! "loading-modal") ->
        is_hidden "loading-modal" (pending loc biz w) = false /\
        is_hidden "loading-modal" w' = true).
Proof. apply loading_indicator_lifecycle. Qed.

Lemma C1_loading_indicator_witness :
  exists rendering,
    effects (exec (ChoksApp.handleLocationAnalysis submission (Rejects TypeError)) page) =
      effects page ++ [PreventDefault] ++ indicator ClassListRemove page ++
      [Request "/api/analyze" "POST"
         (ChoksApp.analyzeRequest "Downtown Plaza" "food_truck" (checkedDemographics page))] ++
      rendering ++ indicator ClassListAdd page
    /\ List.filter (on_element "loading-modal") rendering = []
    /\ List.filter is_request rendering = []
    /\ exec (ChoksApp.handleLocationAnalysis submission (Rejects TypeError)) page =
       exec ChoksApp.hideLoading
         (exec (settle (Rejects TypeError)) (pending "Downtown Plaza" "food_truck" page))
    /\ (is_Some (document page !! "loading-modal") ->
        is_hidden "loading-modal" (pending "Downtown Plaza" "food_truck" page) = false /\
        is_hidden "loading-modal"
          (exec (ChoksApp.handleLocationAnalysis submission (Rejects TypeError)) page) = true).
Proof.
  apply (C1_loading_indicator submission (Rejects TypeError) page
           "Downtown Plaza" "food_truck");
    [reflexivity | discriminate | reflexivity | discriminate].
Defined.

















(** C9. For every analytics event: whatever the way the request settles,
    [sendEvent] completes normally; nothing of the page changes (document,
    checked boxes, storage); the only effects are the request and, when it
    is rejected, one line of console output; and every later handler
    completes the same way and leaves the same page as it would have
    without the event. *)
Theorem C9_analytics_is_isolated (eventType : string) (data : JSON.Value)
    (net : Settled) (w : World) :
  let w' := exec (Analytics.sendEvent eventType data net) w in
  completion (Analytics.sendEvent eventType data net) w = Normal () /\
  same_page w' w /\
  effects w' =
    effects w ++
    Request "/api/analytics" "POST"
      (JSON.stringify (JSON.Obj [("event_type", JSON.Str eventType); ("data", data)]))
    :: match net with
       | Rejects reason => [ConsoleDebug "Analytics error:" reason]
       | Resolves _ => []
       end /\
  (forall a : Action,
      completion (perform a) w' = completion (perform a) w /\
      same_page (exec (perform a) w') (exec (perform a) w)).
Proof.
  intros w'.
  pose proof (sendEvent_run eventType data net w) as Hrun.
  assert (completion (Analytics.sendEvent eventType data net) w = Normal ()) as Hnormal
    by (unfold completion; by rewrite Hrun).
  assert (w' = snd (Analytics.sendEvent eventType data net w)) as Hw' by reflexivity.
  rewrite Hrun in Hw'. cbn [snd] in Hw'. rewrite Hw'.
  split_and!; [exact Hnormal | apply same_page_set_effects | reflexivity |].
  intros a. apply oblivious_perform, same_page_set_effects.
Qed.

(** C10, as amended.  If the entry under the save-list key is not empty
    and is not valid JSON, [saveAnalysis] throws a [SyntaxError] while
    parsing and leaves the world as it was: no record is appended, the
    entry is unchanged, no banner is shown.  The fallback to the empty
    sequence applies when the entry is absent and also when it is the
    empty string. *)
Theorem C10_malformed_entry (now analysisId : string) (w : World) :
  match localStorage w !! "savedAnalyses" with
  | Some (String c text) =>
      JSON.parse (String c text) = None ->
      ChoksApp.saveAnalysis now analysisId w = (Throw SyntaxError, w)
  | Some EmptyString | None =>
      forall location,
        document w !! "location" = Some location ->
        completion (ChoksApp.saveAnalysis now analysisId) w = Normal () /\
        savedAnalyses (exec (ChoksApp.saveAnalysis now analysisId) w) =
          Some (JSON.Arr [ChoksApp.savedRecord analysisId now (value location)])
  end.
Proof.
  destruct (localStorage w !! "savedAnalyses") as [[|c text]|] eqn:Hstored.
  - intros location Hel.
    assert (savedAnalyses w = Some (JSON.Arr [])) as Hsaved
      by (unfold savedAnalyses; by rewrite Hstored).
    by destruct (saveAnalysis_appends now analysisId w [] location Hsaved Hel) as (? & _ & ? & _).
  - intros Hbad.
    unfold ChoksApp.saveAnalysis, localStorage_getItem, JSON_parse, mbind, Js_bind.
    rewrite Hstored.
    change (or_else (Some (String c text)) "[]") with (String c text). by rewrite Hbad.
  - intros location Hel.
    assert (savedAnalyses w = Some (JSON.Arr [])) as Hsaved
      by (unfold savedAnalyses; by rewrite Hstored).
    by destruct (saveAnalysis_appends now analysisId w [] location Hsaved Hel) as (? & _ & ? & _).
Qed.

Lemma C10_malformed_entry_witness :
  let w := set_localStorage (<["savedAnalyses" := "{oops"]> ∅) page in
  ChoksApp.saveAnalysis "2026-03-01T09:00:00.000Z" "a1" w = (Throw SyntaxError, w).
Proof.
  exact (C10_malformed_entry "2026-03-01T09:00:00.000Z" "a1"
           (set_localStorage (<["savedAnalyses" := "{oops"]> ∅) page) eq_refl).
Defined.

(** C10, as stated, fails when the entry exists and is the empty string:
    the empty string is not valid JSON, yet [saveAnalysis] does not throw;
    it falls back to the empty sequence, appends the record, overwrites
    the entry and shows the banner. *)
Lemma C10_counterexample :
  let w := set_localStorage (<["savedAnalyses" := EmptyString]> ∅) page in
  let w' := exec (ChoksApp.saveAnalysis "2026-03-01T09:00:00.000Z" "a1") w in
  localStorage w !! "savedAnalyses" = Some EmptyString /\
  JSON.parse EmptyString = None /\
  completion (ChoksApp.saveAnalysis "2026-03-01T09:00:00.000Z" "a1") w = Normal () /\
  localStorage w' !! "savedAnalyses" =
    Some (JSON.stringify
            (JSON.Arr [ChoksApp.savedRecord "a1" "2026-03-01T09:00:00.000Z"
                         "Downtown Plaza"])) /\
  content w' = ChoksApp.successHtml "Analysis saved successfully!".
Proof.
  cbv zeta. split_and!; vm_compute; reflexivity.
Qed.

(** * Further properties of the scripts

    ** More frames *)

#[export] Instance same_inputs_refl : Reflexive same_inputs.
Proof. by intros w. Qed.

#[export] Instance same_inputs_trans : Transitive same_inputs.
Proof.
  intros w1 w2 w3 (D1 & C1 & F1 & S1) (D2 & C2 & F2 & S2). split_and!; [|congruence..].
  intros id. by rewrite D2.
Qed.

#[export] Instance same_elements_refl : Reflexive same_elements.
Proof. by intros w id. Qed.

#[export] Instance same_elements_trans : Transitive same_elements.
Proof. intros w1 w2 w3 H1 H2 id. etrans; [apply H2 | apply H1]. Qed.

Lemma inputs_effect e : preserves same_inputs (effect e).
Proof. by intros w. Qed.

Lemma inputs_update id f :
  (forall e, value (f e) = value e) -> (forall e, defaultValue (f e) = defaultValue e) ->
  preserves same_inputs (update_element id f).
Proof.
  intros Hv Hd w. split_and!; try done. intros id'. cbn.
  destruct (decide (id' = id)) as [->|Hne].
  - rewrite lookup_alter_eq. destruct (document w !! id) as [e|]; cbn; [|done].
    by rewrite Hv, Hd.
  - by rewrite lookup_alter_ne.
Qed.

Lemma same_inputs_elements w w' : same_inputs w w' -> same_elements w w'.
Proof.
  intros [H _] id. specialize (H id).
  destruct (document w' !! id), (document w !! id); cbn in H; try done.
  all: split; intros [? ?]; done.
Qed.

Lemma preserves_read {A} (R : World -> World -> Prop) `{!Reflexive R} (f : World -> A) :
  preserves R (fun w => (Normal (f w), w)).
Proof. intros w. reflexivity. Qed.

(** One step of a frame proof for the relations of this part. *)
Ltac frame_step :=
  first
    [ preserves_step
    | lazymatch goal with
      | |- preserves same_inputs (effect _) => apply inputs_effect
      | |- preserves same_inputs (update_element _ _) => apply inputs_update; done
      | |- preserves _ (fun w => (Normal _, w)) => apply preserves_read; tc_solve
      end ].

Ltac frame_auto := repeat frame_step.

Ltac unfold_scripts :=
  unfold ChoksApp.handleLocationAnalysis, ChoksApp.showError, ChoksApp.displayResults,
    ChoksApp.showLoading, ChoksApp.hideLoading, ChoksApp.showSuccess, fetch, Response_json,
    assign_innerHTML, classList_remove, classList_add.

Lemma handleLocationAnalysis_inputs event net :
  preserves same_inputs (ChoksApp.handleLocationAnalysis event net).
Proof. unfold_scripts. frame_auto. Qed.

Lemma handleLocationAnalysis_keeps id event net :
  id ≠ "loading-modal" -> id ≠ "results-content" -> id ≠ "results-section" ->
  preserves (keeps id) (ChoksApp.handleLocationAnalysis event net).
Proof. intros H1 H2 H3. unfold_scripts. frame_auto. Qed.

(** ** Pages that lack a part of the results area *)

Lemma passes_validation_true event :
  passes_validation event = true ->
  exists loc biz,
    form_location event = Some loc /\ loc ≠ EmptyString /\
    form_business_type event = Some biz /\ biz ≠ EmptyString.
Proof.
  unfold passes_validation. intros H%negb_true_iff%orb_false_iff. destruct H as [Hl Hb].
  apply falsy_false in Hl as (loc & ? & ?). apply falsy_false in Hb as (biz & ? & ?).
  by exists loc, biz.
Qed.

Lemma passes_validation_false event :
  passes_validation event = false ->
  falsy (form_location event) || falsy (form_business_type event) = true.
Proof. unfold passes_validation. by intros H%negb_false_iff. Qed.

Lemma showError_no_content message w :
  document w !! "results-content" = None ->
  ChoksApp.showError message w = (Normal (), w).
Proof.
  intros Hc. unfold ChoksApp.showError, getElementById, mbind, Js_bind. by rewrite Hc.
Qed.

Lemma showError_no_section message w container :
  document w !! "results-content" = Some container ->
  document w !! "results-section" = None ->
  ChoksApp.showError message w =
  (Throw TypeError,
   set_document (alter (set_innerHTML (ChoksApp.errorHtml message)) "results-content"
                   (document w)) w).
Proof.
  intros Hc Hs.
  unfold ChoksApp.showError, assign_innerHTML, update_element, getElementById, deref,
    mbind, Js_bind.
  rewrite Hc. cbn [document set_document]. by rewrite lookup_alter_ne, Hs.
Qed.

Lemma displayResults_no_area result w :
  document w !! "results-section" = None \/ document w !! "results-content" = None ->
  ChoksApp.displayResults result w = (Normal (), w).
Proof.
  intros H. unfold ChoksApp.displayResults, getElementById, mbind, Js_bind.
  destruct H as [-> | ->]; [done|]. by destruct (document w !! "results-section").
Qed.

Lemma section_if_content_elements w w' :
  same_elements w w' -> section_if_content w -> section_if_content w'.
Proof.
  intros H [Hs | Hc]; [left; by apply H | right].
  apply eq_None_not_Some. intros Hc'%H. by rewrite Hc in Hc'; destruct Hc'.
Qed.

Lemma showError_completes message w :
  section_if_content w -> completion (ChoksApp.showError message) w = Normal ().
Proof.
  intros [[section Hs] | Hc].
  - destruct (document w !! "results-content") as [container|] eqn:Hc.
    + unfold completion. by rewrite (showError_run _ _ _ _ Hc Hs).
    + unfold completion. by rewrite showError_no_content.
  - unfold completion. by rewrite showError_no_content.
Qed.

Lemma try_catch_completes (body : Js unit) (handler : Exn -> Js unit) w :
  (forall e, completion (handler e) (exec body w) = Normal ()) ->
  completion (try_catch body handler) w = Normal ().
Proof.
  unfold completion, exec, try_catch. intros H.
  destruct (body w) as [[[]|e] w1]; [done|]. apply H.
Qed.

Lemma settle_completes net w :
  section_if_content w -> completion (settle net) w = Normal ().
Proof.
  intros HP. unfold settle. apply try_catch_completes. intros _.
  apply showError_completes.
  lazymatch goal with
  | |- section_if_content (exec ?b _) =>
      assert (preserves same_inputs b) as Hb by (unfold_scripts; frame_auto)
  end.
  eapply section_if_content_elements; [|exact HP]. apply same_inputs_elements, Hb.
Qed.

(** X1. On a page that has its results section, or that has no results
    area at all, the submission handler never ends with an exception:
    whatever the form holds and however the request settles, every error
    is turned into a panel. *)
Theorem X1_submission_completes (event : SubmitEvent) (net : Settled) (w : World) :
  is_Some (document w !! "results-section") \/ document w !! "results-content" = None ->
  completion (ChoksApp.handleLocationAnalysis event net) w = Normal ().
Proof.
  intros HP. destruct (passes_validation event) eqn:Hvalid.
  - apply passes_validation_true in Hvalid as (loc & biz & Hl & Hln & Hb & Hbn).
    rewrite (handleLocationAnalysis_completion _ _ _ _ _ Hl Hln Hb Hbn).
    apply settle_completes.
    unfold section_if_content. cbn [exec effect snd document set_effects].
    by rewrite (showLoading_keeps "results-section"), (showLoading_keeps "results-content").
  - apply passes_validation_false in Hvalid.
    unfold completion. rewrite (handleLocationAnalysis_invalid _ _ _ Hvalid).
    by apply showError_completes.
Qed.

Lemma X1_submission_completes_witness :
  completion (ChoksApp.handleLocationAnalysis submission (Rejects TypeError)) page = Normal ().
Proof.
  apply (X1_submission_completes submission (Rejects TypeError) page).
  left. by eexists.
Defined.

Lemma settle_no_section net w container :
  document w !! "results-content" = Some container ->
  document w !! "results-section" = None ->
  completion (settle net) w = (if renders net then Normal () else Throw TypeError) /\
  content (exec (settle net) w) =
    (if renders net then content w else ChoksApp.errorHtml network_error).
Proof.
  intros Hc Hs.
  assert (forall message,
             completion (ChoksApp.showError message) w = Throw TypeError /\
             content (exec (ChoksApp.showError message) w) = ChoksApp.errorHtml message)
    as Herr.
  { intros message. unfold completion, exec, content.
    rewrite (showError_no_section _ _ _ Hc Hs). cbn [fst snd document set_document].
    by rewrite lookup_alter_eq, Hc. }
  unfold completion, exec, content in Herr.
  destruct net as [reason | [status [e | result]]]; cbn [renders body ok].
  - unfold completion, exec. rewrite settle_rejects. apply Herr.
  - unfold completion, exec. rewrite settle_unparseable. apply Herr.
  - unfold completion, exec, settle, try_catch, Response_json, mbind, Js_bind, mret, Js_ret.
    cbn [body ok]. destruct (status && success result).
    + by rewrite displayResults_no_area by auto.
    + rewrite (showError_no_section _ _ _ Hc Hs).
      erewrite showError_no_section; cbn [document set_document].
      * cbn [fst snd]. split; [done|]. unfold content. cbn [document set_document].
        by rewrite !lookup_alter_eq, Hc.
      * by rewrite lookup_alter_eq, Hc.
      * by rewrite lookup_alter_ne.
Qed.

(** X2. On a page that has the results content but not the results
    section, [showError] writes its panel and then fails on the missing
    section.  So a submission ends with a [TypeError] on every path that
    reports an error: after the validation message when a field is empty,
    after the network-error message, written by the [catch] block, when the
    request does not bring a result to render.  Only a response that leads
    to [displayResults] ends normally, and nothing is rendered for it. *)
Theorem X2_page_without_results_section (event : SubmitEvent) (net : Settled) (w : World)
    (container : Element) :
  document w !! "results-content" = Some container ->
  document w !! "results-section" = None ->
  let w' := exec (ChoksApp.handleLocationAnalysis event net) w in
  if passes_validation event && renders net then
    completion (ChoksApp.handleLocationAnalysis event net) w = Normal () /\
    content w' = content w
  else
    completion (ChoksApp.handleLocationAnalysis event net) w = Throw TypeError /\
    content w' =
      ChoksApp.errorHtml
        (if passes_validation event then network_error
         else "Please fill in all required fields").
Proof.
  intros Hc Hs w'. subst w'. destruct (passes_validation event) eqn:Hvalid; cbn [andb].
  - apply passes_validation_true in Hvalid as (loc & biz & Hl & Hln & Hb & Hbn).
    destruct (submission_results event net w loc biz Hl Hln Hb Hbn)
      as (w3 & Hc3 & Hs3 & -> & -> & _).
    rewrite Hc in Hc3. rewrite Hs in Hs3.
    destruct (settle_no_section net w3 container Hc3 Hs3) as [-> ->].
    assert (content w3 = content w) as Hcontent by (unfold content; by rewrite Hc3, Hc).
    rewrite Hcontent. by destruct (renders net).
  - apply passes_validation_false in Hvalid.
    unfold completion, exec, content. rewrite (handleLocationAnalysis_invalid _ _ _ Hvalid).
    rewrite (showError_no_section _ _ container) by done.
    cbn [fst snd document set_document exec effect set_effects].
    by rewrite lookup_alter_eq, Hc.
Qed.

Lemma X2_page_without_results_section_witness :
  let w := set_document (delete "results-section" (document page)) page in
  completion (ChoksApp.handleLocationAnalysis submission (Rejects TypeError)) w =
    Throw TypeError /\
  content (exec (ChoksApp.handleLocationAnalysis submission (Rejects TypeError)) w) =
    ChoksApp.errorHtml network_error.
Proof.
  exact (X2_page_without_results_section submission (Rejects TypeError)
           (set_document (delete "results-section" (document page)) page) blank
           eq_refl eq_refl).
Defined.

Lemma settle_no_content net w :
  document w !! "results-content" = None -> settle net w = (Normal (), w).
Proof.
  intros Hc.
  destruct net as [reason | [status [e | result]]].
  - rewrite settle_rejects. by apply showError_no_content.
  - rewrite settle_unparseable. by apply showError_no_content.
  - unfold settle, try_catch, Response_json, mbind, Js_bind, mret, Js_ret.
    cbn [body ok]. destruct (status && success result).
    + by rewrite displayResults_no_area by auto.
    + by rewrite showError_no_content.
Qed.

Lemma requestOf_valid event w loc biz :
  form_location event = Some loc -> form_business_type event = Some biz ->
  requestOf event w =
  Request "/api/analyze" "POST" (ChoksApp.analyzeRequest loc biz (checkedDemographics w)).
Proof. intros Hl Hb. unfold requestOf. by rewrite Hl, Hb. Qed.

(** X3. On a page without the results content a submission shows
    nothing, whatever comes back: the handler ends normally, its only
    effects are [preventDefault] and, when the fields are filled in, the
    loading indicator shown, the request, and the indicator hidden; no
    element but the loading modal changes. *)
Theorem X3_page_without_results_content (event : SubmitEvent) (net : Settled) (w : World) :
  document w !! "results-content" = None ->
  let w' := exec (ChoksApp.handleLocationAnalysis event net) w in
  completion (ChoksApp.handleLocationAnalysis event net) w = Normal () /\
  effects w' =
    effects w ++ PreventDefault ::
      (if passes_validation event then
         indicator ClassListRemove w ++ [requestOf event w] ++ indicator ClassListAdd w
       else []) /\
  forall id, id ≠ "loading-modal" -> document w' !! id = document w !! id.
Proof.
  intros Hc w'. subst w'. destruct (passes_validation event) eqn:Hvalid.
  - apply passes_validation_true in Hvalid as (loc & biz & Hl & Hln & Hb & Hbn).
    rewrite (requestOf_valid _ _ _ _ Hl Hb).
    rewrite (handleLocationAnalysis_completion _ _ _ _ _ Hl Hln Hb Hbn).
    rewrite (handleLocationAnalysis_exec _ _ _ _ _ Hl Hln Hb Hbn).
    set (w3 := exec (effect _) _).
    assert (document w3 !! "results-content" = None) as Hc3.
    { subst w3. cbn [exec effect snd document set_effects].
      by rewrite (showLoading_keeps "results-content"). }
    assert (completion (settle net) w3 = Normal ()) as ->
      by (unfold completion; by rewrite (settle_no_content _ _ Hc3)).
    assert (exec (settle net) w3 = w3) as ->
      by (unfold exec; by rewrite (settle_no_content _ _ Hc3)).
    split_and!; [done| |].
    + rewrite hideLoading_exec. subst w3. cbn [exec effect snd document set_effects effects].
      rewrite showLoading_exec. unfold indicator, exec, effect.
      cbn [fst snd document set_effects set_document effects].
      destruct (document w !! "loading-modal") as [modal|] eqn:Hm;
        cbn [fst snd document set_effects set_document effects].
      * rewrite lookup_alter_eq, Hm. cbn. by rewrite <- !app_assoc.
      * rewrite Hm. by rewrite <- !app_assoc.
    + intros id Hid. rewrite (hideLoading_keeps id) by done. subst w3.
      cbn [exec effect snd document set_effects]. by rewrite (showLoading_keeps id).
  - apply passes_validation_false in Hvalid.
    unfold completion, exec. rewrite (handleLocationAnalysis_invalid _ _ _ Hvalid).
    rewrite showError_no_content by done. done.
Qed.

Lemma X3_page_without_results_content_witness :
  let w := set_document (delete "results-content" (document page)) page in
  effects (exec (ChoksApp.handleLocationAnalysis submission (Rejects TypeError)) w) =
    [PreventDefault; ClassListRemove "loading-modal" "hidden"; requestOf submission w;
     ClassListAdd "loading-modal" "hidden"].
Proof.
  exact (proj1 (proj2 (X3_page_without_results_content submission (Rejects TypeError)
           (set_document (delete "results-content" (document page)) page) eq_refl))).
Defined.

(** X4. A submission, whatever its outcome, changes nothing but class
    lists and markup: every control keeps its value and its default, the
    demographic boxes and the storage are untouched, and every element
    other than the loading modal and the two elements of the results area
    is exactly what it was. *)
Theorem X4_submission_frame (event : SubmitEvent) (net : Settled) (w : World) :
  let w' := exec (ChoksApp.handleLocationAnalysis event net) w in
  same_inputs w w' /\
  forall id, id ≠ "loading-modal" -> id ≠ "results-content" -> id ≠ "results-section" ->
             document w' !! id = document w !! id.
Proof.
  split; [apply handleLocationAnalysis_inputs|].
  intros id H1 H2 H3. by apply handleLocationAnalysis_keeps.
Qed.

(** ** The effects of a submission *)

Lemma exec_bind_effect {A} e (k : unit -> Js A) w :
  exec (effect e ≫= k) w = exec (k ()) (exec (effect e) w).
Proof. reflexivity. Qed.

(** X5. Every submission prevents the default action of the form first
    and exactly once: with empty fields, with a failing request and when
    the handler itself ends with an exception. *)
Theorem X5_default_prevented_once (event : SubmitEvent) (net : Settled) (w : World) :
  exists rest,
    effects (exec (ChoksApp.handleLocationAnalysis event net) w) =
      effects w ++ PreventDefault :: rest /\
    List.filter is_preventDefault rest = [].
Proof.
  unfold ChoksApp.handleLocationAnalysis. rewrite exec_bind_effect.
  lazymatch goal with
  | |- context [exec ?k (exec (effect PreventDefault) w)] =>
      assert (preserves (quiet is_preventDefault) k) as Hk
        by (unfold_scripts; frame_auto)
  end.
  destruct (Hk (exec (effect PreventDefault) w)) as (rest & Heff & Hrest).
  exists rest. split; [|done]. rewrite Heff. cbn [exec effect snd effects set_effects].
  by rewrite <- app_assoc.
Qed.

(** ** The body of the analyze request *)

Lemma well_formed_strings l : forallb JSON.well_formed (List.map JSON.Str l) = true.
Proof. induction l as [|x l IH]; [done|]. exact IH. Qed.

Lemma analyzeRequest_reads_back loc biz demographics :
  JSON.parse (ChoksApp.analyzeRequest loc biz demographics) =
  Some (JSON.Obj [("location", JSON.Str loc);
                  ("business_type", JSON.Str biz);
                  ("target_demographics", JSON.Arr (List.map JSON.Str demographics))]).
Proof.
  unfold ChoksApp.analyzeRequest. apply JSONFacts.parse_stringify.
  cbn [JSON.well_formed forallb snd andb]. by rewrite well_formed_strings.
Qed.

(** X6. The request of a submission carries a body that is a JSON text
    for every location, business type and selection of demographics,
    whatever characters they hold: parsed, it is the object with the
    location and the business type of the form and the values of the
    checked boxes in their order. *)
Theorem X6_analyze_request_reads_back (event : SubmitEvent) (net : Settled) (w : World)
    (loc biz : string) :
  form_location event = Some loc -> loc ≠ EmptyString ->
  form_business_type event = Some biz -> biz ≠ EmptyString ->
  exists text,
    Request "/api/analyze" "POST" text
      ∈ effects (exec (ChoksApp.handleLocationAnalysis event net) w) /\
    JSON.parse text =
      Some (JSON.Obj [("location", JSON.Str loc);
                      ("business_type", JSON.Str biz);
                      ("target_demographics",
                       JSON.Arr (List.map JSON.Str (checkedDemographics w)))]).
Proof.
  intros Hl Hln Hb Hbn.
  exists (ChoksApp.analyzeRequest loc biz (checkedDemographics w)).
  split; [|apply analyzeRequest_reads_back].
  destruct (loading_indicator_lifecycle event net w loc biz Hl Hln Hb Hbn)
    as (rendering & -> & _).
  rewrite !elem_of_app. right. right. right. left. apply list_elem_of_here.
Qed.

Lemma X6_analyze_request_reads_back_witness :
  exists text,
    Request "/api/analyze" "POST" text
      ∈ effects (exec (ChoksApp.handleLocationAnalysis submission (Rejects TypeError)) page) /\
    JSON.parse text =
      Some (JSON.Obj [("location", JSON.Str "Downtown Plaza");
                      ("business_type", JSON.Str "food_truck");
                      ("target_demographics",
                       JSON.Arr (List.map JSON.Str (checkedDemographics page)))]).
Proof.
  apply (X6_analyze_request_reads_back submission (Rejects TypeError) page
           "Downtown Plaza" "food_truck");
    [reflexivity | discriminate | reflexivity | discriminate].
Defined.

Lemma well_shaped_true result :
  well_shaped result = true ->
  exists rec ins, recommendation result = Some rec /\ insights rec = Some ins.
Proof.
  unfold well_shaped. destruct (recommendation result) as [rec|]; [|done].
  destruct (insights rec) as [ins|] eqn:Hi; [|done]. by exists rec, ins.
Qed.

Lemma well_shaped_false result :
  well_shaped result = false ->
  recommendation result = None \/
  (exists r, recommendation result = Some r /\ insights r = None).
Proof.
  unfold well_shaped. destruct (recommendation result) as [rec|]; [|by left].
  destruct (insights rec) as [ins|] eqn:Hi; [done|]. right. by exists rec.
Qed.

Lemma showError_effects message w container section :
  document w !! "results-content" = Some container ->
  document w !! "results-section" = Some section ->
  effects (exec (ChoksApp.showError message) w) =
  effects w ++ [ClassListRemove "results-section" "hidden"].
Proof. intros Hc Hs. unfold exec. by rewrite (showError_run _ _ _ _ Hc Hs). Qed.

Lemma settle_effects net w container section :
  document w !! "results-content" = Some container ->
  document w !! "results-section" = Some section ->
  effects (exec (settle net) w) =
  effects w ++ ClassListRemove "results-section" "hidden" ::
    (if displays net then [ScrollIntoView "results-section"] else []).
Proof.
  intros Hc Hs.
  destruct net as [reason | [status [e | result]]]; cbn [displays body ok].
  - unfold exec. rewrite settle_rejects. by apply (showError_effects _ _ container section).
  - unfold exec. rewrite settle_unparseable. by apply (showError_effects _ _ container section).
  - destruct (status && success result) eqn:Hok; cbn [andb].
    + apply andb_true_iff in Hok as [-> Hsuccess].
      destruct (well_shaped result) eqn:Hshape.
      * apply well_shaped_true in Hshape as (rec & ins & Hr & Hi).
        unfold exec. rewrite (settle_success _ _ _ _ _ _ Hc Hs Hsuccess Hr Hi).
        by rewrite (displayResults_run _ _ _ _ _ _ Hc Hs Hr Hi).
      * apply well_shaped_false in Hshape.
        unfold exec. rewrite (settle_malformed _ _ _ _ Hc Hs Hsuccess Hshape).
        by apply (showError_effects _ _ container section).
    + unfold exec. rewrite (settle_failure _ _ _ _ _ Hc Hs Hok).
      by apply (showError_effects _ _ container section).
Qed.

(** X7. On a page with the results area the effects of a submission are,
    in this order: [preventDefault]; for filled-in fields the loading
    indicator shown and the one request; the results section revealed;
    a scroll to the results section, only when a result card was rendered;
    for filled-in fields the loading indicator hidden.  An error panel is
    revealed without scrolling to it. *)
Theorem X7_submission_effects (event : SubmitEvent) (net : Settled) (w : World)
    (container section : Element) :
  document w !! "results-content" = Some container ->
  document w !! "results-section" = Some section ->
  effects (exec (ChoksApp.handleLocationAnalysis event net) w) =
    effects w ++ [PreventDefault] ++
    (if passes_validation event then indicator ClassListRemove w ++ [requestOf event w]
     else []) ++
    [ClassListRemove "results-section" "hidden"] ++
    (if passes_validation event && displays net then [ScrollIntoView "results-section"]
     else []) ++
    (if passes_validation event then indicator ClassListAdd w else []).
Proof.
  intros Hc Hs. destruct (passes_validation event) eqn:Hvalid; cbn [andb].
  - apply passes_validation_true in Hvalid as (loc & biz & Hl & Hln & Hb & Hbn).
    rewrite (requestOf_valid _ _ _ _ Hl Hb).
    rewrite (handleLocationAnalysis_exec _ _ _ _ _ Hl Hln Hb Hbn).
    set (w3 := exec (effect _) _).
    assert (document w3 !! "results-content" = Some container /\
            document w3 !! "results-section" = Some section /\
            document w3 !! "loading-modal" =
              (fun e => set_classList (DOMTokenList_remove "hidden" (classList e)) e)
                <$> document w !! "loading-modal" /\
            effects w3 = effects w ++ [PreventDefault] ++ indicator ClassListRemove w ++
              [Request "/api/analyze" "POST"
                 (ChoksApp.analyzeRequest loc biz (checkedDemographics w))])
      as (Hc3 & Hs3 & Hm3 & He3).
    { subst w3. rewrite showLoading_exec. unfold indicator, exec, effect.
      cbn [fst snd document set_effects set_document effects].
      destruct (document w !! "loading-modal") as [modal|] eqn:Hm;
        cbn [fst snd document set_effects set_document effects].
      - rewrite lookup_alter_eq, !lookup_alter_ne, Hm, <- !app_assoc by done. done.
      - rewrite Hm, <- !app_assoc. done. }
    pose proof (settle_effects net w3 container section Hc3 Hs3) as He4.
    pose proof (settle_keeps "loading-modal" net ltac:(done) ltac:(done) w3) as Hk4.
    unfold keeps in Hk4.
    rewrite hideLoading_exec, Hk4, Hm3. unfold indicator in *.
    destruct (document w !! "loading-modal") as [modal|];
      cbn [fmap option_fmap option_map effects set_effects];
      rewrite He4, He3; destruct (displays net);
      by rewrite <- ?app_assoc, ?app_nil_r.
  - apply passes_validation_false in Hvalid.
    unfold exec at 1. rewrite (handleLocationAnalysis_invalid _ _ _ Hvalid).
    fold (exec (ChoksApp.showError "Please fill in all required fields")
            (exec (effect PreventDefault) w)).
    rewrite (showError_effects _ _ container section) by done.
    cbn [exec effect snd effects set_effects]. by rewrite <- app_assoc.
Qed.

Lemma X7_submission_effects_witness :
  effects (exec (ChoksApp.handleLocationAnalysis submission (Rejects TypeError)) page) =
    [PreventDefault; ClassListRemove "loading-modal" "hidden"; requestOf submission page;
     ClassListRemove "results-section" "hidden"; ClassListAdd "loading-modal" "hidden"].
Proof.
  exact (X7_submission_effects submission (Rejects TypeError) page blank
           (set_classList ["hidden"] blank) eq_refl eq_refl).
Defined.

(** ** Saving *)

(** A save either fails before it has changed anything, or finds a stored
    sequence and the location control. *)
Lemma saveAnalysis_cases now analysisId w :
  (exists e, ChoksApp.saveAnalysis now analysisId w = (Throw e, w) /\
             (e = SyntaxError \/ e = TypeError) /\
             ~ ((exists items, savedAnalyses w = Some (JSON.Arr items)) /\
                is_Some (document w !! "location"))) \/
  (exists items location,
      savedAnalyses w = Some (JSON.Arr items) /\ document w !! "location" = Some location).
Proof.
  unfold savedAnalyses, ChoksApp.saveAnalysis, localStorage_getItem, JSON_parse,
    getElementById, deref, throw, mbind, Js_bind, mret, Js_ret.
  destruct (JSON.parse (or_else (localStorage w !! "savedAnalyses") "[]")) as [v|] eqn:Hparse.
  - destruct v as [|b|literal|s|items|members].
    5: { destruct (document w !! "location") as [location|] eqn:Hloc.
         - right. exists items, location. split; reflexivity.
         - left. exists TypeError. split_and!; [done | by right | by intros [_ [? ?]]]. }
    all: left; exists TypeError; split_and!; [done | by right | by intros [[? [=]] _]].
  - left. exists SyntaxError. split_and!; [done | by left | by intros [[? ?] _]].
Qed.




Lemma showSuccess_run message w :
  ChoksApp.showSuccess message w =
  (Normal (),
   match document w !! "results-content" with
   | Some container =>
       set_document
         (alter (set_innerHTML (ChoksApp.successHtml message ++ innerHTML container))
            "results-content" (document w)) w
   | None => w
   end).
Proof.
  unfold ChoksApp.showSuccess, assign_innerHTML, update_element, getElementById,
    mbind, Js_bind.
  by destruct (document w !! "results-content").
Qed.

(** X10. Saving is local to the browser: [saveAnalysis] makes no request
    and has no effect on the outside at all; of the storage only the entry
    [savedAnalyses] can change, and of the page only the markup of the
    results content.  The class lists are untouched, so a results section
    that is hidden stays hidden. *)
Theorem X10_save_is_local (now analysisId : string) (w : World) :
  let w' := exec (ChoksApp.saveAnalysis now analysisId) w in
  effects w' = effects w /\
  checkedDemographics w' = checkedDemographics w /\
  (forall key, key ≠ "savedAnalyses" -> localStorage w' !! key = localStorage w !! key) /\
  (forall id, id ≠ "results-content" -> document w' !! id = document w !! id) /\
  (forall id, classList <$> document w' !! id = classList <$> document w !! id).
Proof.
  intros w'. subst w'.
  destruct (saveAnalysis_cases now analysisId w)
    as [(e' & Hrun & _) | (items & location & Hsaved & Hloc)].
  - unfold exec. by rewrite Hrun.
  - unfold exec. rewrite (saveAnalysis_run _ _ _ _ _ Hsaved Hloc), showSuccess_run.
    cbn [snd document set_localStorage].
    destruct (document w !! "results-content") as [container|] eqn:Hc;
      cbn [effects document localStorage checkedDemographics defaultDemographics
           set_document set_localStorage].
    + split_and!; try done.
      * intros key Hkey. by rewrite lookup_insert_ne.
      * intros id Hid. by rewrite lookup_alter_ne.
      * intros id. destruct (decide (id = "results-content")) as [->|Hne].
        -- by rewrite lookup_alter_eq, Hc.
        -- by rewrite lookup_alter_ne.
    + split_and!; try done. intros key Hkey. by rewrite lookup_insert_ne.
Qed.

Lemma banners_commute {A} n (banner : list A) :
  concat (repeat banner n) ++ banner = banner ++ concat (repeat banner n).
Proof.
  induction n as [|n IH]; cbn [repeat concat].
  - by rewrite app_nil_r.
  - by rewrite <- app_assoc, IH.
Qed.

Lemma banners_snoc {A} n (banner rest : list A) :
  concat (repeat banner n) ++ banner ++ rest = concat (repeat banner (S n)) ++ rest.
Proof. rewrite app_assoc, banners_commute. reflexivity. Qed.

(** X11. The banners of successive saves pile up: each save puts one more
    success banner in front of what the results content holds and removes
    none, so after [n] saves in a row the content is [n] banners followed
    by the content from before. *)
Theorem X11_banners_accumulate (saves : list (string * string)) :
  forall (w : World) (prior : list JSON.Value) (location container : Element),
  savedAnalyses w = Some (JSON.Arr prior) ->
  document w !! "location" = Some location ->
  document w !! "results-content" = Some container ->
  content (run (List.map (fun s => SaveAnalysis s.1 s.2) saves) w) =
  concat (repeat (ChoksApp.successHtml "Analysis saved successfully!") (length saves))
    ++ content w.
Proof.
  induction saves as [|[now analysisId] saves IH]; intros w prior location container
    Hsaved Hloc Hc; [done|].
  cbn [List.map run fold_left perform fst snd length].
  fold (run (List.map (fun s => SaveAnalysis s.1 s.2) saves)
          (exec (ChoksApp.saveAnalysis now analysisId) w)).
  destruct (saveAnalysis_appends now analysisId w prior location Hsaved Hloc)
    as (_ & _ & Hsaved' & Hloc').
  assert (document (exec (ChoksApp.saveAnalysis now analysisId) w) !! "results-content" =
          Some (set_innerHTML
                  (ChoksApp.successHtml "Analysis saved successfully!" ++ innerHTML container)
                  container)) as Hc'.
  { unfold exec. rewrite (saveAnalysis_run _ _ _ _ _ Hsaved Hloc), showSuccess_run.
    cbn [snd document set_localStorage]. rewrite Hc. cbn [document set_document].
    by rewrite lookup_alter_eq, Hc. }
  rewrite (IH _ _ _ _ Hsaved' Hloc' Hc').
  unfold content. rewrite Hc', Hc. cbn [fmap option_fmap option_map default innerHTML
    set_innerHTML length]. apply banners_snoc.
Qed.

Lemma X11_banners_accumulate_witness :
  content (run [SaveAnalysis "2026-03-01T09:00:00.000Z" "a1";
                SaveAnalysis "2026-03-01T09:05:00.000Z" "a1"] page) =
  ChoksApp.successHtml "Analysis saved successfully!" ++
  ChoksApp.successHtml "Analysis saved successfully!" ++ content page.
Proof.
  exact (X11_banners_accumulate
           [("2026-03-01T09:00:00.000Z", "a1"); ("2026-03-01T09:05:00.000Z", "a1")]
           page [] (set_value "Downtown Plaza" blank) blank eq_refl eq_refl eq_refl).
Defined.

(** ** Starting over *)

(** [newAnalysis] step by step: it stops at the first element that the
    page lacks. *)
Lemma newAnalysis_run w :
  ChoksApp.newAnalysis w =
  match document w !! "location-form" with
  | None => (Throw TypeError, w)
  | Some _ =>
      let w1 := exec (form_reset "location-form") w in
      match document w !! "results-section" with
      | None => (Throw TypeError, w1)
      | Some _ =>
          let w2 := exec (classList_add "results-section" "hidden") w1 in
          match document w !! "location" with
          | None => (Throw TypeError, w2)
          | Some _ => (Normal (), exec (effect (Focus "location")) w2)
          end
      end
  end.
Proof.
  unfold ChoksApp.newAnalysis, getElementById, deref, throw, mbind, Js_bind, mret, Js_ret.
  destruct (document w !! "location-form") as [form|]; [|done].
  cbv zeta. unfold exec at 3. unfold form_reset at 1 2 3. world_simpl.
  rewrite lookup_fmap.
  destruct (document w !! "results-section") as [section|]; [|done].
  cbn [fmap option_fmap option_map]. unfold exec at 1 3.
  unfold classList_add, update_element, effect, mbind, Js_bind. world_simpl.
  rewrite lookup_alter_ne, lookup_fmap by done.
  by destruct (document w !! "location") as [location|].
Qed.

(** X12. [newAnalysis] needs the form, the results section and the
    location control, and checks for none of them: it ends with a
    [TypeError] at the first one that the page lacks, and what it did
    before stays done.  Without the form nothing happens; without the
    results section the form is reset and the section is not hidden;
    without the location control the form is reset and the section hidden,
    and no control gets the focus. *)
Theorem X12_newAnalysis_stops_midway (w : World) :
  let w' := exec ChoksApp.newAnalysis w in
  match document w !! "location-form", document w !! "results-section",
        document w !! "location" with
  | None, _, _ => ChoksApp.newAnalysis w = (Throw TypeError, w)
  | Some _, None, _ =>
      completion ChoksApp.newAnalysis w = Throw TypeError /\
      effects w' = effects w ++ [FormReset "location-form"]
  | Some _, Some _, None =>
      completion ChoksApp.newAnalysis w = Throw TypeError /\
      effects w' =
        effects w ++ [FormReset "location-form"; ClassListAdd "results-section" "hidden"] /\
      is_hidden "results-section" w' = true
  | Some _, Some _, Some _ =>
      completion ChoksApp.newAnalysis w = Normal () /\
      effects w' =
        effects w ++ [FormReset "location-form"; ClassListAdd "results-section" "hidden";
                      Focus "location"] /\
      is_hidden "results-section" w' = true
  end.
Proof.
  intros w'. subst w'. pose proof (newAnalysis_run w) as Hrun. cbv zeta in Hrun.
  destruct (document w !! "location-form") as [form|] eqn:Hf; [|done].
  destruct (document w !! "results-section") as [section|] eqn:Hs.
  - assert (forall w2,
               document w2 =
                 alter (fun e => set_classList (DOMTokenList_add "hidden" (classList e)) e)
                   "results-section"
                   ((fun e => set_value (defaultValue e) e) <$> document w) ->
               is_hidden "results-section" w2 = true) as Hhidden.
    { intros w2 Hw2. unfold is_hidden. rewrite Hw2, lookup_alter_eq, lookup_fmap, Hs.
      cbn [fmap option_fmap option_map classList set_classList set_value].
      apply DOMTokenList_add_elem. }
    destruct (document w !! "location") as [location|] eqn:Hl;
      unfold completion, exec; rewrite Hrun; cbn [fst snd];
      (split_and!; [done| |by apply Hhidden]);
      unfold exec, classList_add, update_element, form_reset, mbind, Js_bind, effect;
      world_simpl; by rewrite <- ?app_assoc.
  - unfold completion, exec at 1. rewrite Hrun. cbn [fst snd]. split; [done|].
    unfold exec, form_reset. by world_simpl.
Qed.

(** X13. [newAnalysis] discards nothing: on every page, and also when it
    stops midway, the storage is what it was, so the saved analyses
    survive, and every element keeps its markup, so the previous result or
    error panel is still in the results content, only hidden. *)
Theorem X13_newAnalysis_keeps_results (w : World) :
  let w' := exec ChoksApp.newAnalysis w in
  localStorage w' = localStorage w /\
  content w' = content w /\
  forall id, innerHTML <$> document w' !! id = innerHTML <$> document w !! id.
Proof.
  intros w'. subst w'.
  assert (localStorage (exec ChoksApp.newAnalysis w) = localStorage w /\
          forall id, innerHTML <$> document (exec ChoksApp.newAnalysis w) !! id =
                     innerHTML <$> document w !! id) as [Hstorage Hmarkup].
  { unfold exec at 1 2. rewrite newAnalysis_run.
    destruct (document w !! "location-form") as [form|]; [|done].
    assert (forall id, innerHTML <$> ((fun e => set_value (defaultValue e) e) <$> document w) !! id =
                       innerHTML <$> document w !! id) as Hreset.
    { intros id. rewrite lookup_fmap. by destruct (document w !! id). }
    assert (forall id,
               innerHTML <$>
                 alter (fun e => set_classList (DOMTokenList_add "hidden" (classList e)) e)
                   "results-section" ((fun e => set_value (defaultValue e) e) <$> document w)
                 !! id =
               innerHTML <$> document w !! id) as Hhide.
    { intros id. destruct (decide (id = "results-section")) as [->|Hne].
      - rewrite lookup_alter_eq, lookup_fmap. by destruct (document w !! "results-section").
      - by rewrite lookup_alter_ne, Hreset. }
    destruct (document w !! "results-section") as [section|];
      [destruct (document w !! "location") as [location|]|];
      cbv zeta; unfold exec, classList_add, update_element, form_reset, mbind, Js_bind, effect;
      world_simpl; done. }
  split_and!; [done| |done].
  unfold content. specialize (Hmarkup "results-content").
  destruct (document (exec ChoksApp.newAnalysis w) !! "results-content"),
    (document w !! "results-content"); cbn in *; by simplify_eq.
Qed.

(** ** More of the result card *)




(** ** Validation while typing *)

(** X16. The border colour that [validateLocation] sets is advice only:
    a location of one to three code units gets the plain border colour, not
    the success colour, and a submission with it is analysed all the same;
    the request is sent. *)
Theorem X16_validation_is_advisory (target : InputTarget) (event : SubmitEvent)
    (net : Settled) (w : World) (biz : string) :
  target_value target ≠ EmptyString ->
  String_length (target_value target) <= 3 ->
  form_location event = Some (target_value target) ->
  form_business_type event = Some biz -> biz ≠ EmptyString ->
  borderColor (ChoksApp.validateLocation target) = "var(--border-color)" /\
  requestOf event w ∈ effects (exec (ChoksApp.handleLocationAnalysis event net) w).
Proof.
  intros Hln Hshort Hl Hb Hbn. split.
  - unfold ChoksApp.validateLocation. cbn [borderColor].
    destruct (3 <? String_length (target_value target))%nat eqn:Hlen; [|done].
    apply Nat.ltb_lt in Hlen. lia.
  - rewrite (requestOf_valid _ _ _ _ Hl Hb).
    destruct (loading_indicator_lifecycle event net w _ biz Hl Hln Hb Hbn)
      as (rendering & -> & _).
    rewrite !elem_of_app. right. right. right. left. apply list_elem_of_here.
Qed.

Lemma X16_validation_is_advisory_witness :
  let event := {| form_location := Some "NYC"; form_business_type := Some "food_truck" |} in
  borderColor (ChoksApp.validateLocation {| target_value := "NYC"; borderColor := EmptyString |}) =
    "var(--border-color)" /\
  requestOf event page
    ∈ effects (exec (ChoksApp.handleLocationAnalysis event (Rejects TypeError)) page).
Proof.
  apply (X16_validation_is_advisory {| target_value := "NYC"; borderColor := EmptyString |}
           {| form_location := Some "NYC"; form_business_type := Some "food_truck" |}
           (Rejects TypeError) page "food_truck");
    [discriminate | vm_compute; lia | reflexivity | reflexivity | discriminate].
Defined.

(** ** Analytics events *)

Lemma sendEvent_reads_back eventType data net w :
  JSON.well_formed data = true ->
  exists text,
    Analytics.sendEvent eventType data net w =
      (Normal (), set_effects (effects w ++ analyticsEffects text net) w) /\
    JSON.parse text = Some (JSON.Obj [("event_type", JSON.Str eventType); ("data", data)]).
Proof.
  intros Hwf. eexists. split; [apply sendEvent_run|].
  apply JSONFacts.parse_stringify. cbn [JSON.well_formed forallb snd andb]. by rewrite Hwf.
Qed.

(** X17. The listener that reports a submission to analytics: on a page
    without the business-type control it ends with a [TypeError] before
    any request is made and changes nothing; otherwise it ends normally
    however the request settles, changes nothing on the page, and sends
    one request whose body parses to the event [analysis_started] with the
    value of the control and with [has_demographics] true exactly when a
    demographic box is checked. *)
Theorem X17_analysis_started (net : Settled) (w : World) :
  match document w !! "business_type" with
  | None => Analytics.onSubmit net w = (Throw TypeError, w)
  | Some control =>
      exists text,
        Analytics.onSubmit net w =
          (Normal (), set_effects (effects w ++ analyticsEffects text net) w) /\
        JSON.parse text =
          Some (JSON.Obj
                  [("event_type", JSON.Str "analysis_started");
                   ("data",
                    JSON.Obj
                      [("business_type", JSON.Str (value control));
                       ("has_demographics",
                        JSON.Bool (bool_decide (checkedDemographics w ≠ [])))])])
  end.
Proof.
  destruct (document w !! "business_type") as [control|] eqn:Hc.
  - unfold Analytics.onSubmit, getElementById, deref, mbind, Js_bind, mret, Js_ret.
    rewrite Hc. cbv beta iota.
    replace (bool_decide (checkedDemographics w ≠ []))
      with (0 <? length (checkedDemographics w))%nat
      by (by destruct (checkedDemographics w)).
    by apply sendEvent_reads_back.
  - unfold Analytics.onSubmit, getElementById, deref, mbind, Js_bind. by rewrite Hc.
Qed.

(** X18. A click on a feature card: a card without a heading makes the
    listener end with a [TypeError] before any request is made; a card
    with a heading sends one request whose body parses to the event
    [feature_card_click] with the text of the heading, ends normally
    however the request settles, and changes nothing on the page. *)
Theorem X18_feature_card_click (card : FeatureCard) (net : Settled) (w : World) :
  match h3 card with
  | None => Analytics.onFeatureCardClick card net w = (Throw TypeError, w)
  | Some heading =>
      exists text,
        Analytics.onFeatureCardClick card net w =
          (Normal (), set_effects (effects w ++ analyticsEffects text net) w) /\
        JSON.parse text =
          Some (JSON.Obj
                  [("event_type", JSON.Str "feature_card_click");
                   ("data", JSON.Obj [("feature", JSON.Str heading)])])
  end.
Proof.
  unfold Analytics.onFeatureCardClick. destruct (h3 card) as [heading|]; [|done].
  by apply sendEvent_reads_back.
Qed.

(** X19. The page view reported when the analytics object is created:
    one request, whose body parses to the event [page_view] with the path,
    the time and the user agent, each as it was given; the call ends
    normally however the request settles and changes nothing on the
    page. *)
Theorem X19_page_view (pathname now userAgent : string) (net : Settled) (w : World) :
  exists text,
    Analytics.trackPageView pathname now userAgent net w =
      (Normal (), set_effects (effects w ++ analyticsEffects text net) w) /\
    JSON.parse text =
      Some (JSON.Obj
              [("event_type", JSON.Str "page_view");
               ("data",
                JSON.Obj [("page", JSON.Str pathname);
                          ("timestamp", JSON.Str now);
                          ("user_agent", JSON.Str userAgent)])]).
Proof. by apply sendEvent_reads_back. Qed.
